(** * DateParser (dateparser.h): shallow embedding and specification lemmas

    The development follows the declaration order of [class DateParser]:
    the range test [Between], the character reader [InputReader] with its
    three scanning loops, and the field composers [TimeComposer] and
    [DayComposer].

    Conventions.  A C++ [int] is a [Z] in the signed 32-bit range; the
    arithmetic that can leave that range is written with its wrap-around
    ([wrap_int]) and a cast to [unsigned] is [to_unsigned].  Characters
    ([uint32_t ch_]) are [Z] code units, [0] being the end sentinel.  Loop
    counters bounded by the buffer length ([index_], [i], [len], [balance])
    never reach the width of [int] and carry no wrap-around. *)

From Equations Require Import Equations.
From Equations.Prop Require Import Logic.
From Stdlib Require Import ZArith Lia Bool List.
From stdpp Require Import base list.

#[local] Open Scope Z_scope.

(** ** Machine integers *)

Module Int.

Definition modulus : Z := 2 ^ 32.
Definition kMinInt : Z := - 2 ^ 31.
Definition kMaxInt : Z := 2 ^ 31 - 1.

(** [is_int x]: [x] is a value of the C++ type [int]. *)
Definition is_int (x : Z) : Prop := kMinInt <= x <= kMaxInt.

(** [static_cast<unsigned>(x)], also the implicit conversion of an [int]
    operand that meets a [uint32_t] one. *)
Definition to_unsigned (x : Z) : Z := x mod modulus.

(** Result of an [int] operation whose mathematical value is [x]; also the
    conversion of an [unsigned] value stored into an [int]. *)
Definition wrap_int (x : Z) : Z := (x + 2 ^ 31) mod modulus - 2 ^ 31.

Definition sub (x y : Z) : Z := wrap_int (x - y).
Definition mul (x y : Z) : Z := wrap_int (x * y).

(** Arithmetic on [unsigned]. *)
Definition uadd (x y : Z) : Z := (x + y) mod modulus.
Definition usub (x y : Z) : Z := (x - y) mod modulus.

End Int.

(** ** Range testing and constants *)

(** [static inline bool Between(int x, int lo, int hi)]. *)
Definition Between (x lo hi : Z) : bool :=
  Int.to_unsigned (Int.sub x lo) <=? Int.to_unsigned (Int.sub hi lo).

(** [static const int kNone = kMaxInt]. *)
Definition kNone : Z := Int.kMaxInt.

(** [static const int kMaxSignificantDigits = 9]. *)
Definition kMaxSignificantDigits : Z := 9.

(** Modelled from the spec: [IsDecimalDigit], which char-predicates-inl.h
    defines and dateparser.h only includes; the specification describes it
    as the ASCII-digit test, the decimal digits ['0'] to ['9']. *)
Definition IsDecimalDigit (c : Z) : bool := (48 <=? c) && (c <=? 57).

(** ** InputReader *)

(** The injected Unicode capability: only its white-space test is used. *)
Record UnicodeCache := { IsWhiteSpace : Z -> bool }.

Module InputReader.

Record t := mk {
  index_ : Z;
  buffer_ : list Z;
  ch_ : Z;
  unicode_cache_ : UnicodeCache
}.

Definition length (r : t) : Z := Z.of_nat (List.length (buffer_ r)).

Definition position (r : t) : Z := index_ r.

(** [void Next()]: [buffer_[index_]] is read only below [buffer_.length()]. *)
Definition Next (r : t) : t :=
  {| index_ := index_ r + 1;
     buffer_ := buffer_ r;
     ch_ := if index_ r <? length r
            then default 0 (buffer_ r !! Z.to_nat (index_ r))
            else 0;
     unicode_cache_ := unicode_cache_ r |}.

(** The constructor: [index_(0)], then [Next()].  [ch_] has no initialiser;
    its first value is the one [Next] gives it. *)
Definition new (cache : UnicodeCache) (s : list Z) : t :=
  Next {| index_ := 0; buffer_ := s; ch_ := 0; unicode_cache_ := cache |}.

Definition Is (r : t) (c : Z) : bool := ch_ r =? c.
Definition IsEnd (r : t) : bool := ch_ r =? 0.
Definition IsAsciiDigit (r : t) : bool := IsDecimalDigit (ch_ r).
Definition IsAsciiAlphaOrAbove (r : t) : bool := 65 <=? ch_ r.
Definition IsAsciiSign (r : t) : bool := (ch_ r =? 43) || (ch_ r =? 45).
Definition GetAsciiSignValue (r : t) : Z := 44 - ch_ r.

(** Termination measure of the scanning loops: two units for every buffer
    character not yet loaded and one for a look-ahead that is not the end
    sentinel.  It decreases across [Next] both when the look-ahead before
    the call is not the sentinel (loops that test first) and when the
    look-ahead after it is not (the loop that tests last). *)
Definition remaining (r : t) : nat :=
  (2 * Z.to_nat (length r - index_ r)%Z + (if (ch_ r =? 0)%Z then 0 else 1))%nat.

Lemma remaining_Next_before r :
  ch_ r <> 0 -> (remaining (Next r) < remaining r)%nat.
Proof.
  intros Hc. unfold remaining, length. cbn [Next index_ buffer_ ch_].
  fold (length r). destruct (Z.eqb_spec (ch_ r) 0) as [|_]; [contradiction|].
  destruct (Z.ltb_spec (index_ r) (length r)).
  - destruct (_ =? 0); lia.
  - cbn. lia.
Qed.

Lemma remaining_Next_after r :
  ch_ (Next r) <> 0 -> (remaining (Next r) < remaining r)%nat.
Proof.
  unfold remaining, length. cbn [Next index_ buffer_ ch_].
  fold (length r). intros Hc.
  destruct (Z.ltb_spec (index_ r) (length r)); [|contradiction].
  destruct (_ =? 0); destruct (_ =? 0); lia.
Qed.

(** One accumulation step of [ReadUnsignedNumeral]: [n * 10 + ch_ - '0'].
    [n * 10] is an [int] product; adding the [uint32_t] look-ahead converts
    it to [unsigned]; the result is stored back into the [int] [n]. *)
Definition accumulate (n c : Z) : Z :=
  Int.wrap_int (Int.usub (Int.uadd (Int.to_unsigned (Int.mul n 10)) c) 48).

(** The [while (IsAsciiDigit())] loop of [ReadUnsignedNumeral]. *)
Equations? ReadUnsignedNumeral_loop (r : t) (n i : Z) : Z * t
  by wf (remaining r) lt :=
ReadUnsignedNumeral_loop r n i with inspect (IsAsciiDigit r) := {
  | exist _ true Hd =>
      ReadUnsignedNumeral_loop (Next r)
        (if i <? kMaxSignificantDigits then accumulate n (ch_ r) else n)
        (i + 1);
  | exist _ false _ => (n, r) }.
Proof.
  apply remaining_Next_before. intros E.
  unfold IsAsciiDigit in Hd. rewrite E in Hd. discriminate.
Qed.

Definition ReadUnsignedNumeral (r : t) : Z * t :=
  ReadUnsignedNumeral_loop r 0 0.

Section WithLower.

(** [AsciiAlphaToLower] is defined in char-predicates-inl.h, which
    dateparser.h only includes; [ReadWord] is embedded over any such
    function. *)
Variable AsciiAlphaToLower : Z -> Z.

(** First loop of [ReadWord]:
    [for (len = 0; IsAsciiAlphaOrAbove(); Next(), len++)]. *)
Equations? ReadWord_scan (r : t) (prefix : list Z) (prefix_size len : Z)
  : Z * list Z * t by wf (remaining r) lt :=
ReadWord_scan r prefix prefix_size len with inspect (IsAsciiAlphaOrAbove r) := {
  | exist _ true Ha =>
      ReadWord_scan (Next r)
        (if len <? prefix_size
         then <[Z.to_nat len := AsciiAlphaToLower (ch_ r)]> prefix
         else prefix)
        prefix_size (len + 1);
  | exist _ false _ => (len, prefix, r) }.
Proof.
  apply remaining_Next_before. intros E.
  unfold IsAsciiAlphaOrAbove in Ha. rewrite E in Ha. discriminate.
Qed.

(** Second loop of [ReadWord]:
    [for (int i = len; i < prefix_size; i++) prefix[i] = 0]. *)
Equations? ReadWord_pad (prefix : list Z) (prefix_size i : Z) : list Z
  by wf (Z.to_nat (prefix_size - i)) lt :=
ReadWord_pad prefix prefix_size i with inspect (i <? prefix_size) := {
  | exist _ true Hi =>
      ReadWord_pad (<[Z.to_nat i := 0]> prefix) prefix_size (i + 1);
  | exist _ false _ => prefix }.
Proof. apply Z.ltb_lt in Hi. lia. Qed.

(** [int ReadWord(uint32_t* prefix, int prefix_size)]: the returned triple is
    the word length, the caller's buffer and the reader. *)
Definition ReadWord (r : t) (prefix : list Z) (prefix_size : Z)
  : Z * list Z * t :=
  let '(len, prefix, r) := ReadWord_scan r prefix prefix_size 0 in
  (len, ReadWord_pad prefix prefix_size len, r).

End WithLower.

(** The skip methods return whether they actually skipped something. *)
Definition Skip (r : t) (c : Z) : bool * t :=
  if ch_ r =? c then (true, Next r) else (false, r).

Definition SkipWhiteSpace (r : t) : bool * t :=
  if IsWhiteSpace (unicode_cache_ r) (ch_ r) then (true, Next r) else (false, r).

(** Body of the [do ... while] of [SkipParentheses]: the balance after the
    look-ahead [c] has been accounted for. *)
Definition rebalance (c balance : Z) : Z :=
  if c =? 41 then balance - 1
  else if c =? 40 then balance + 1
  else balance.

(** [do { ...; Next(); } while (balance > 0 && ch_)]. *)
Equations? SkipParentheses_loop (r : t) (balance : Z) : t
  by wf (remaining r) lt :=
SkipParentheses_loop r balance
  with inspect ((0 <? rebalance (ch_ r) balance) && negb (ch_ (Next r) =? 0)) := {
  | exist _ true Hc =>
      SkipParentheses_loop (Next r) (rebalance (ch_ r) balance);
  | exist _ false _ => Next r }.
Proof.
  apply remaining_Next_after. intros E.
  apply andb_prop in Hc as [_ Hc]. cbn [Next ch_] in E. cbn [Next ch_] in Hc.
  rewrite E in Hc. discriminate.
Qed.

Definition SkipParentheses (r : t) : bool * t :=
  if negb (ch_ r =? 40) then (false, r)
  else (true, SkipParentheses_loop r 0).

End InputReader.

(** ** TimeComposer *)

Module TimeComposer.

Definition kSize : Z := 4.

Record t := mk {
  comp_ : list Z;
  index_ : Z;
  hour_offset_ : Z
}.

(** The constructor initialises [index_] and [hour_offset_]; the array
    [comp_] starts with whatever [junk] its storage holds. *)
Definition new (junk : list Z) : t :=
  {| comp_ := junk; index_ := 0; hour_offset_ := kNone |}.

Definition IsMinute (x : Z) : bool := Between x 0 59.
Definition IsHour (x : Z) : bool := Between x 0 23.
Definition IsSecond (x : Z) : bool := Between x 0 59.
Definition IsHour12 (x : Z) : bool := Between x 0 12.
Definition IsMillisecond (x : Z) : bool := Between x 0 999.

Definition IsEmpty (c : t) : bool := index_ c =? 0.

Definition IsExpecting (c : t) (n : Z) : bool :=
  ((index_ c =? 1) && IsMinute n) ||
  ((index_ c =? 2) && IsSecond n) ||
  ((index_ c =? 3) && IsMillisecond n).

(** [index_ < kSize ? (comp_[index_++] = n, true) : false]. *)
Definition Add (c : t) (n : Z) : bool * t :=
  if index_ c <? kSize
  then (true, {| comp_ := <[Z.to_nat (index_ c) := n]> (comp_ c);
                 index_ := index_ c + 1;
                 hour_offset_ := hour_offset_ c |})
  else (false, c).

(** [while (index_ < kSize) comp_[index_++] = 0]. *)
Equations? AddFinal_loop (c : t) : t by wf (Z.to_nat (kSize - index_ c)) lt :=
AddFinal_loop c with inspect (index_ c <? kSize) := {
  | exist _ true Hi =>
      AddFinal_loop {| comp_ := <[Z.to_nat (index_ c) := 0]> (comp_ c);
                       index_ := index_ c + 1;
                       hour_offset_ := hour_offset_ c |};
  | exist _ false _ => c }.
Proof. apply Z.ltb_lt in Hi. cbn. lia. Qed.

Definition AddFinal (c : t) (n : Z) : bool * t :=
  let (ok, c) := Add c n in
  if negb ok then (false, c) else (true, AddFinal_loop c).

Definition SetHourOffset (c : t) (n : Z) : t :=
  {| comp_ := comp_ c; index_ := index_ c; hour_offset_ := n |}.

End TimeComposer.

(** ** DayComposer *)

Module DayComposer.

Definition kSize : Z := 3.

Record t := mk {
  comp_ : list Z;
  index_ : Z;
  named_month_ : Z;
  is_iso_date_ : bool
}.

Definition new (junk : list Z) : t :=
  {| comp_ := junk; index_ := 0; named_month_ := kNone;
     is_iso_date_ := false |}.

Definition IsEmpty (c : t) : bool := index_ c =? 0.

Definition Add (c : t) (n : Z) : bool * t :=
  if index_ c <? kSize
  then (true, {| comp_ := <[Z.to_nat (index_ c) := n]> (comp_ c);
                 index_ := index_ c + 1;
                 named_month_ := named_month_ c;
                 is_iso_date_ := is_iso_date_ c |})
  else (false, c).

Definition SetNamedMonth (c : t) (n : Z) : t :=
  {| comp_ := comp_ c; index_ := index_ c; named_month_ := n;
     is_iso_date_ := is_iso_date_ c |}.

Definition set_iso_date (c : t) : t :=
  {| comp_ := comp_ c; index_ := index_ c; named_month_ := named_month_ c;
     is_iso_date_ := true |}.

Definition IsMonth (x : Z) : bool := Between x 1 12.
Definition IsDay (x : Z) : bool := Between x 1 31.

End DayComposer.

(** ** KeywordType and DateToken *)

Module KeywordType.

Inductive t := INVALID | MONTH_NAME | TIME_ZONE_NAME | TIME_SEPARATOR | AM_PM.

(** The enumerators number from 0 in the order of their declaration. *)
Definition to_int (k : t) : Z :=
  match k with
  | INVALID => 0
  | MONTH_NAME => 1
  | TIME_ZONE_NAME => 2
  | TIME_SEPARATOR => 3
  | AM_PM => 4
  end.

(** [static_cast<KeywordType>(z)], where [z] names an enumerator. *)
Definition of_int (z : Z) : option t :=
  match z with
  | 0 => Some INVALID
  | 1 => Some MONTH_NAME
  | 2 => Some TIME_ZONE_NAME
  | 3 => Some TIME_SEPARATOR
  | 4 => Some AM_PM
  | _ => None
  end.

End KeywordType.

Module DateToken.

Definition kInvalidTokenTag : Z := -6.
Definition kUnknownTokenTag : Z := -5.
Definition kWhiteSpaceTag : Z := -4.
Definition kNumberTag : Z := -3.
Definition kSymbolTag : Z := -2.
Definition kEndOfInputTag : Z := -1.
Definition kKeywordTagStart : Z := 0.

Record t := mk {
  tag_ : Z;
  length_ : Z;
  value_ : Z
}.

(** [static_cast<char>(v)] and the conversion of an argument to a [char]
    parameter, [char] being a signed byte. *)
Definition to_char (v : Z) : Z := (v + 128) mod 256 - 128.

Definition IsInvalid (k : t) : bool := tag_ k =? kInvalidTokenTag.
Definition IsUnknown (k : t) : bool := tag_ k =? kUnknownTokenTag.
Definition IsNumber (k : t) : bool := tag_ k =? kNumberTag.
Definition IsSymbol (k : t) : bool := tag_ k =? kSymbolTag.
Definition IsWhiteSpace (k : t) : bool := tag_ k =? kWhiteSpaceTag.
Definition IsEndOfInput (k : t) : bool := tag_ k =? kEndOfInputTag.
Definition IsKeyword (k : t) : bool := kKeywordTagStart <=? tag_ k.

Definition length (k : t) : Z := length_ k.

(** The accessors guarded by an [ASSERT]: [None] where the assertion fails. *)
Definition number (k : t) : option Z :=
  if IsNumber k then Some (value_ k) else None.

Definition keyword_type (k : t) : option KeywordType.t :=
  if IsKeyword k then KeywordType.of_int (tag_ k) else None.

Definition keyword_value (k : t) : option Z :=
  if IsKeyword k then Some (value_ k) else None.

Definition symbol (k : t) : option Z :=
  if IsSymbol k then Some (to_char (value_ k)) else None.

(** [bool IsSymbol(char symbol)]: [IsSymbol() && this->symbol() == symbol]. *)
Definition IsSymbol_char (k : t) (c : Z) : bool :=
  IsSymbol k &&
  match symbol k with
  | Some s => s =? to_char c
  | None => false
  end.

Definition IsKeywordType (k : t) (tag : KeywordType.t) : bool :=
  tag_ k =? KeywordType.to_int tag.

Definition IsFixedLengthNumber (k : t) (len : Z) : bool :=
  IsNumber k && (length_ k =? len).

Definition IsAsciiSign (k : t) : bool :=
  (tag_ k =? kSymbolTag) && ((value_ k =? 45) || (value_ k =? 43)).

Definition ascii_sign (k : t) : option Z :=
  if IsAsciiSign k then Some (44 - value_ k) else None.

Definition IsKeywordZ (k : t) : bool :=
  IsKeywordType k KeywordType.TIME_ZONE_NAME && (length_ k =? 1)
  && (value_ k =? 0).

(** [bool IsUnknown(int character)]. *)
Definition IsUnknown_char (k : t) (character : Z) : bool :=
  IsUnknown k && (value_ k =? character).

(** Factory functions. *)
Definition Keyword (tag : KeywordType.t) (value len : Z) : t :=
  {| tag_ := KeywordType.to_int tag; length_ := len; value_ := value |}.
Definition Number (value len : Z) : t :=
  {| tag_ := kNumberTag; length_ := len; value_ := value |}.
Definition Symbol (c : Z) : t :=
  {| tag_ := kSymbolTag; length_ := 1; value_ := to_char c |}.
Definition EndOfInput : t :=
  {| tag_ := kEndOfInputTag; length_ := 0; value_ := -1 |}.
Definition WhiteSpace (len : Z) : t :=
  {| tag_ := kWhiteSpaceTag; length_ := len; value_ := -1 |}.
Definition Unknown : t :=
  {| tag_ := kUnknownTokenTag; length_ := 1; value_ := -1 |}.
Definition Invalid : t :=
  {| tag_ := kInvalidTokenTag; length_ := 0; value_ := -1 |}.

End DateToken.

(** ** DateStringTokenizer *)

Module DateStringTokenizer.

(** The tokenizer holds a pointer to the reader it scans; the reader's state
    is carried in [in_]. *)
Record t := mk {
  in_ : InputReader.t;
  next_ : DateToken.t
}.

Section WithScan.

(** [Scan] is declared in the class and defined in dateparser-inl.h; the
    tokenizer is embedded over any scanning function. *)
Variable Scan : InputReader.t -> DateToken.t * InputReader.t.

(** [explicit DateStringTokenizer(InputReader<Char>* in)]. *)
Definition new (r : InputReader.t) : t :=
  let (k, r) := Scan r in {| in_ := r; next_ := k |}.

Definition Next (s : t) : DateToken.t * t :=
  let result := next_ s in
  let (k, r) := Scan (in_ s) in
  (result, {| in_ := r; next_ := k |}).

Definition Peek (s : t) : DateToken.t := next_ s.

Definition SkipSymbol (s : t) (c : Z) : bool * t :=
  if DateToken.IsSymbol_char (next_ s) c
  then let (k, r) := Scan (in_ s) in (true, {| in_ := r; next_ := k |})
  else (false, s).

End WithScan.

End DateStringTokenizer.

(** ** TimeZoneComposer *)

Module TimeZoneComposer.

Record t := mk {
  sign_ : Z;
  hour_ : Z;
  minute_ : Z
}.

Definition new : t := {| sign_ := kNone; hour_ := kNone; minute_ := kNone |}.

(** [void Set(int offset_in_hours)]: [sign_] is assigned first and used in
    the product. *)
Definition Set_ (c : t) (offset_in_hours : Z) : t :=
  let sign := if offset_in_hours <? 0 then -1 else 1 in
  {| sign_ := sign; hour_ := Int.mul offset_in_hours sign; minute_ := 0 |}.

Definition SetSign (c : t) (sign : Z) : t :=
  {| sign_ := if sign <? 0 then -1 else 1;
     hour_ := hour_ c; minute_ := minute_ c |}.

Definition SetAbsoluteHour (c : t) (hour : Z) : t :=
  {| sign_ := sign_ c; hour_ := hour; minute_ := minute_ c |}.

Definition SetAbsoluteMinute (c : t) (minute : Z) : t :=
  {| sign_ := sign_ c; hour_ := hour_ c; minute_ := minute |}.

Definition IsExpecting (c : t) (n : Z) : bool :=
  negb (hour_ c =? kNone) && (minute_ c =? kNone) && TimeComposer.IsMinute n.

Definition IsUTC (c : t) : bool := (hour_ c =? 0) && (minute_ c =? 0).

Definition IsEmpty (c : t) : bool := hour_ c =? kNone.

End TimeZoneComposer.

(** ** Vocabulary of the specification *)

Module ReaderView.
Import InputReader.

(** What a reader still has to deliver: its look-ahead, then the part of the
    buffer that [Next] has not loaded yet. *)
Definition pending (r : t) : list Z :=
  ch_ r :: drop (Z.to_nat (index_ r)) (buffer_ r).

(** [k] calls of [Next]. *)
Fixpoint advance (k : nat) (r : t) : t :=
  match k with
  | O => r
  | S k => advance k (Next r)
  end.

(** The same reader state over another buffer. *)
Definition rebase (b : list Z) (r : t) : t :=
  {| index_ := index_ r; buffer_ := b; ch_ := ch_ r;
     unicode_cache_ := unicode_cache_ r |}.

(** Longest prefix whose characters all pass [p]. *)
Fixpoint take_while (p : Z -> bool) (l : list Z) : list Z :=
  match l with
  | [] => []
  | c :: l => if p c then c :: take_while p l else []
  end.

Definition IsAlphaOrAbove (c : Z) : bool := 65 <=? c.

(** Value of a string of decimal digits, most significant first. *)
Definition decimal (ds : list Z) : Z :=
  fold_left (fun n c => n * 10 + (c - 48)) ds 0.

(** Nesting depth after the characters [cs], starting from depth [b]. *)
Definition nesting (b : Z) (cs : list Z) : Z :=
  fold_left (fun b c => rebalance c b) cs b.

(** Text whose parentheses match, free of the end sentinel. *)
Inductive balanced : list Z -> Prop :=
| balanced_nil : balanced []
| balanced_char c w :
    c <> 40 -> c <> 41 -> c <> 0 -> balanced w -> balanced (c :: w)
| balanced_group u w :
    balanced u -> balanced w -> balanced (40 :: u ++ 41 :: w).

(** A reader over the text [pre] that stands at or before the end of [pre],
    or has the end sentinel as look-ahead. *)
Definition before_end (pre : list Z) (r : t) : Prop :=
  buffer_ r = pre /\ 0 <= index_ r /\
  (index_ r <= Z.of_nat (List.length pre) \/ ch_ r = 0).

End ReaderView.

Module DayComposerView.
Import DayComposer.

(** The numbers recorded so far, in the order of their arrival. *)
Definition recorded (c : t) : list Z := take (Z.to_nat (index_ c)) (comp_ c).

(** A series of calls of [Add], with the answer of each. *)
Fixpoint add_all (c : t) (ns : list Z) : list bool * t :=
  match ns with
  | [] => ([], c)
  | n :: ns =>
      let (ok, c) := Add c n in
      let (oks, c) := add_all c ns in
      (ok :: oks, c)
  end.

End DayComposerView.

(** Further vocabulary: token classes, token streams, composer states. *)
Module TokenView.
Import DateToken.

(** How many of the seven class tests a token passes. *)
Definition class_count (k : t) : Z :=
  Z.b2z (IsInvalid k) + Z.b2z (IsUnknown k) + Z.b2z (IsNumber k)
  + Z.b2z (IsSymbol k) + Z.b2z (IsWhiteSpace k) + Z.b2z (IsEndOfInput k)
  + Z.b2z (IsKeyword k).

Section WithScan.
Variable Scan : InputReader.t -> DateToken.t * InputReader.t.

(** The first [n] results of [Scan] on a reader. *)
Fixpoint scanned (n : nat) (r : InputReader.t) : list DateToken.t :=
  match n with
  | O => []
  | S n => let (k, r) := Scan r in k :: scanned n r
  end.

(** The reader after [n] calls of [Scan]. *)
Fixpoint scan_reader (n : nat) (r : InputReader.t) : InputReader.t :=
  match n with
  | O => r
  | S n => scan_reader n (Scan r).2
  end.

(** The results of [n] calls of [Next] on a tokenizer, and the tokenizer
    they leave. *)
Fixpoint delivered (n : nat) (s : DateStringTokenizer.t)
  : list DateToken.t * DateStringTokenizer.t :=
  match n with
  | O => ([], s)
  | S n =>
      let (k, s) := DateStringTokenizer.Next Scan s in
      let (ks, s) := delivered n s in
      (k :: ks, s)
  end.

End WithScan.
End TokenView.

Module ReaderEffects.
Import InputReader.

(** [r'] reads the same buffer with the same cache as [r], not before it. *)
Definition keeps_input (r r' : t) : Prop :=
  buffer_ r' = buffer_ r /\
  unicode_cache_ r' = unicode_cache_ r /\
  index_ r <= index_ r'.

End ReaderEffects.

Module TimeComposerView.
Import TimeComposer.

(** The array has its four cells and [index_] points into or just past it. *)
Definition well_formed (c : t) : Prop :=
  Z.of_nat (List.length (comp_ c)) = kSize /\ 0 <= index_ c <= kSize.

End TimeComposerView.

(** Sample inputs for the examples below. *)
Module Sample.

Definition cache : UnicodeCache := {| IsWhiteSpace := fun c => c =? 32 |}.

(** [c | 0x20]. *)
Definition lower (c : Z) : Z := Z.lor c 32.

(** ["123456789012345x"]: a numeral of fifteen digits. *)
Definition numeral15 : list Z :=
  [49; 50; 51; 52; 53; 54; 55; 56; 57; 48; 49; 50; 51; 52; 53; 120].

(** ["PM "]. *)
Definition word_pm : list Z := [80; 77; 32].

(** ["(a(b))c"]. *)
Definition nested_comment : list Z := [40; 97; 40; 98; 41; 41; 99].

(** ["7"]. *)
Definition digit7 : list Z := [55].

(** ["1"], then a NUL, then ["2"]. *)
Definition with_nul : list Z := [49; 0; 50].

End Sample.

Module MoreSamples.

(** ["(a(b"]: a comment that is never closed. *)
Definition unterminated : list Z := [40; 97; 40; 98].

End MoreSamples.

(** * Specification lemmas *)

(** ** Machine integers and the range test *)

Lemma wrap_int_id x : Int.is_int x -> Int.wrap_int x = x.
Proof.
  unfold Int.is_int, Int.wrap_int, Int.modulus, Int.kMinInt, Int.kMaxInt.
  intros Hx. rewrite Z.mod_small; lia.
Qed.

Lemma to_unsigned_wrap_int x : Int.to_unsigned (Int.wrap_int x) = x mod Int.modulus.
Proof.
  unfold Int.to_unsigned, Int.wrap_int, Int.modulus.
  rewrite Zminus_mod, Zmod_mod, <- Zminus_mod.
  f_equal. lia.
Qed.

Lemma Between_unsigned x lo hi :
  Between x lo hi = ((x - lo) mod Int.modulus <=? (hi - lo) mod Int.modulus).
Proof.
  unfold Between, Int.sub. now rewrite !to_unsigned_wrap_int.
Qed.

Lemma Between_spec x lo hi :
  Int.is_int x -> Int.is_int lo -> Int.is_int hi -> lo <= hi ->
  Between x lo hi = true <-> lo <= x <= hi.
Proof.
  unfold Int.is_int, Int.kMinInt, Int.kMaxInt. intros Hx Hlo Hhi Hle.
  rewrite Between_unsigned, Z.leb_le. unfold Int.modulus.
  rewrite (Z.mod_small (hi - lo)) by lia.
  destruct (Z_lt_le_dec x lo) as [Hlt | Hge].
  - replace ((x - lo) mod 2 ^ 32) with (x - lo + 2 ^ 32).
    + lia.
    + apply Z.mod_unique with (q := -1); lia.
  - rewrite Z.mod_small by lia. lia.
Qed.

Lemma is_int_small x : -1000 <= x <= 1000 -> Int.is_int x.
Proof. unfold Int.is_int, Int.kMinInt, Int.kMaxInt. lia. Qed.

(** Range test against constant bounds. *)
Ltac between_const :=
  intros; apply Between_spec; auto using is_int_small with lia.

(** C4. [Between x lo hi], the unsigned comparison of [x - lo] against
    [hi - lo] modulo 2^32, decides the closed interval [lo <= x <= hi] for
    all 32-bit [x], [lo <= hi]; hence [IsHour] is [0..23], [IsMinute] and
    [IsSecond] are [0..59], [IsMillisecond] is [0..999], [IsMonth] is
    [1..12] and [IsDay] is [1..31]. *)
Theorem Between_decides_closed_interval (x lo hi : Z) :
  Int.is_int x -> Int.is_int lo -> Int.is_int hi -> lo <= hi ->
  (Between x lo hi = true <-> lo <= x <= hi) /\
  (TimeComposer.IsHour x = true <-> 0 <= x <= 23) /\
  (TimeComposer.IsMinute x = true <-> 0 <= x <= 59) /\
  (TimeComposer.IsSecond x = true <-> 0 <= x <= 59) /\
  (TimeComposer.IsMillisecond x = true <-> 0 <= x <= 999) /\
  (DayComposer.IsMonth x = true <-> 1 <= x <= 12) /\
  (DayComposer.IsDay x = true <-> 1 <= x <= 31).
Proof.
  intros Hx Hlo Hhi Hle.
  split; [now apply Between_spec|].
  unfold TimeComposer.IsHour, TimeComposer.IsMinute, TimeComposer.IsSecond,
    TimeComposer.IsMillisecond, DayComposer.IsMonth, DayComposer.IsDay.
  repeat match goal with |- _ /\ _ => split end; revert Hx; between_const.
Qed.

(** A negative [x] tested against [1..31]: the subtraction wraps to a large
    unsigned value and the test answers no. *)
Lemma Between_decides_closed_interval_witness :
  (Between (-1) 1 31 = true <-> 1 <= -1 <= 31) /\
  (TimeComposer.IsHour (-1) = true <-> 0 <= -1 <= 23) /\
  (TimeComposer.IsMinute (-1) = true <-> 0 <= -1 <= 59) /\
  (TimeComposer.IsSecond (-1) = true <-> 0 <= -1 <= 59) /\
  (TimeComposer.IsMillisecond (-1) = true <-> 0 <= -1 <= 999) /\
  (DayComposer.IsMonth (-1) = true <-> 1 <= -1 <= 12) /\
  (DayComposer.IsDay (-1) = true <-> 1 <= -1 <= 31).
Proof.
  apply (Between_decides_closed_interval (-1) 1 31);
    unfold Int.is_int, Int.kMinInt, Int.kMaxInt; lia.
Defined.

(** C3, as the code has it.  [IsHour12] is [Between(x, 0, 12)]: it holds
    exactly on [0..12], the hour 0 included. *)
Theorem IsHour12_spec (x : Z) :
  Int.is_int x -> TimeComposer.IsHour12 x = true <-> 0 <= x <= 12.
Proof. unfold TimeComposer.IsHour12. revert x. between_const. Qed.

Lemma IsHour12_spec_witness : TimeComposer.IsHour12 0 = true <-> 0 <= 0 <= 12.
Proof.
  apply (IsHour12_spec 0). unfold Int.is_int, Int.kMinInt, Int.kMaxInt. lia.
Defined.

(** C3, as stated, fails at the hour 0, which [IsHour12] accepts. *)
Lemma IsHour12_not_1_to_12 :
  ~ (forall x : Z, Int.is_int x ->
       TimeComposer.IsHour12 x = true <-> 1 <= x <= 12).
Proof.
  intros H. specialize (H 0 (is_int_small 0 ltac:(lia))).
  assert (E : TimeComposer.IsHour12 0 = true) by reflexivity.
  apply H in E. lia.
Qed.

(** ** The reader's view of its input *)

Section ReaderFacts.
Import InputReader ReaderView.

Lemma digit_live r : IsAsciiDigit r = true -> ch_ r <> 0.
Proof. unfold IsAsciiDigit. intros Hd E. now rewrite E in Hd. Qed.

Lemma alpha_live r : IsAsciiAlphaOrAbove r = true -> ch_ r <> 0.
Proof. unfold IsAsciiAlphaOrAbove. intros Ha E. now rewrite E in Ha. Qed.

Lemma Next_index r : index_ (Next r) = index_ r + 1.
Proof. reflexivity. Qed.

Lemma Next_buffer r : buffer_ (Next r) = buffer_ r.
Proof. reflexivity. Qed.

Lemma Next_ch r :
  0 <= index_ r -> ch_ (Next r) = default 0 (buffer_ r !! Z.to_nat (index_ r)).
Proof.
  intros Hi. cbn [Next ch_]. unfold length.
  destruct (Z.ltb_spec (index_ r) (Z.of_nat (List.length (buffer_ r)))); [done|].
  rewrite lookup_ge_None_2; [done | lia].
Qed.

Lemma Next_past_end r : length r <= index_ r -> ch_ (Next r) = 0.
Proof.
  intros Hi. cbn [Next ch_].
  destruct (Z.ltb_spec (index_ r) (length r)); [lia | done].
Qed.

Lemma pending_Next r :
  0 <= index_ r ->
  pending (Next r) =
  match drop (Z.to_nat (index_ r)) (buffer_ r) with
  | [] => [0]
  | l => l
  end.
Proof.
  intros Hi. unfold pending. rewrite Next_ch by done. cbn [Next index_ buffer_].
  replace (Z.to_nat (index_ r + 1)) with (S (Z.to_nat (index_ r))) by lia.
  destruct (buffer_ r !! Z.to_nat (index_ r)) as [c|] eqn:E.
  - rewrite (drop_S _ _ _ E). reflexivity.
  - apply lookup_ge_None_1 in E.
    rewrite !drop_ge by lia. reflexivity.
Qed.

Lemma take_while_pending_Next p r :
  0 <= index_ r -> p 0 = false ->
  take_while p (pending (Next r)) =
  take_while p (drop (Z.to_nat (index_ r)) (buffer_ r)).
Proof.
  intros Hi Hp. rewrite pending_Next by done.
  destruct (drop _ _); [cbn; now rewrite Hp | reflexivity].
Qed.

Lemma take_while_length p l : (List.length (take_while p l) <= List.length l)%nat.
Proof. induction l as [|c l IH]; cbn; [lia|]. destruct (p c); cbn; lia. Qed.

Lemma advance_index k r : index_ (advance k r) = index_ r + Z.of_nat k.
Proof.
  revert r. induction k as [|k IH]; intros r; cbn [advance]; [lia|].
  rewrite IH, Next_index. lia.
Qed.

Lemma advance_buffer k r : buffer_ (advance k r) = buffer_ r.
Proof.
  revert r. induction k as [|k IH]; intros r; cbn [advance]; [done|].
  now rewrite IH.
Qed.

Lemma advance_ch k r :
  0 <= index_ r -> ch_ (advance k r) = default 0 (pending r !! k).
Proof.
  revert r. induction k as [|k IH]; intros r Hi; cbn [advance]; [done|].
  rewrite IH by (rewrite Next_index; lia). rewrite pending_Next by done.
  unfold pending. cbn [lookup list_lookup].
  destruct (drop _ _) as [|c l]; [|done].
  destruct k; reflexivity.
Qed.

Lemma advance_succ k r : advance (S k) r = Next (advance k r).
Proof.
  revert r. induction k as [|k IH]; intros r; [done|].
  change (advance (S (S k)) r) with (advance (S k) (Next r)). now rewrite IH.
Qed.

End ReaderFacts.

(** ** ReadUnsignedNumeral *)

Section Numeral.
Import InputReader ReaderView.

Lemma ReadUnsignedNumeral_loop_eq r n i :
  ReadUnsignedNumeral_loop r n i =
  if IsAsciiDigit r
  then ReadUnsignedNumeral_loop (Next r)
         (if i <? kMaxSignificantDigits then accumulate n (ch_ r) else n) (i + 1)
  else (n, r).
Proof.
  rewrite ReadUnsignedNumeral_loop_equation_1.
  destruct (inspect (IsAsciiDigit r)) as [[] e]; cbn; rewrite e; reflexivity.
Qed.

Lemma digit_run_step r :
  0 <= index_ r -> IsAsciiDigit r = true ->
  take_while IsDecimalDigit (pending r) =
  ch_ r :: take_while IsDecimalDigit (pending (Next r)).
Proof.
  intros Hi Hd. rewrite take_while_pending_Next by done.
  unfold pending at 1. cbn [take_while]. unfold IsAsciiDigit in Hd.
  now rewrite Hd.
Qed.

Lemma ReadUnsignedNumeral_loop_spec r n i :
  0 <= index_ r -> 0 <= i ->
  let run := take_while IsDecimalDigit (pending r) in
  ReadUnsignedNumeral_loop r n i =
  (fold_left accumulate (take (Z.to_nat (kMaxSignificantDigits - i)) run) n,
   advance (List.length run) r).
Proof.
  funelim (ReadUnsignedNumeral_loop r n i); intros Hi H0i; cbn zeta.
  - match goal with IH : _ -> _ -> _ = (_, _) |- _ =>
      rewrite IH by (rewrite ?Next_index; lia) end.
    rewrite (digit_run_step r) by done. cbn [List.length advance].
    f_equal. unfold kMaxSignificantDigits.
    destruct (Z.ltb_spec i 9).
    + replace (Z.to_nat (9 - i)) with (S (Z.to_nat (9 - (i + 1)))) by lia.
      reflexivity.
    + replace (Z.to_nat (9 - i)) with O by lia.
      replace (Z.to_nat (9 - (i + 1))) with O by lia. reflexivity.
  - match goal with E : IsAsciiDigit r = false |- _ =>
      unfold IsAsciiDigit in E; unfold pending; cbn [take_while]; rewrite E end.
    now rewrite take_nil.
Qed.

Lemma accumulate_digit n c :
  0 <= n < 10 ^ 8 -> IsDecimalDigit c = true ->
  accumulate n c = n * 10 + (c - 48).
Proof.
  intros Hn Hc. unfold IsDecimalDigit in Hc.
  apply andb_prop in Hc as [H1 H2]. apply Z.leb_le in H1, H2.
  change (10 ^ 8) with 100000000 in Hn.
  assert (Hint : forall x, 0 <= x <= 2000000000 -> Int.is_int x).
  { unfold Int.is_int, Int.kMinInt, Int.kMaxInt. lia. }
  unfold accumulate, Int.mul, Int.uadd, Int.usub, Int.to_unsigned.
  rewrite (wrap_int_id (n * 10)) by (apply Hint; lia).
  unfold Int.modulus. change (2 ^ 32) with 4294967296.
  rewrite (Z.mod_small (n * 10)) by lia.
  rewrite (Z.mod_small (n * 10 + c)) by lia.
  rewrite (Z.mod_small (n * 10 + c - 48)) by lia.
  rewrite wrap_int_id by (apply Hint; lia).
  lia.
Qed.

Lemma take_while_Forall p l : Forall (fun c => p c = true) (take_while p l).
Proof.
  induction l as [|c l IH]; cbn; [constructor|].
  destruct (p c) eqn:E; [constructor; assumption | constructor].
Qed.

Lemma fold_accumulate_digits ds : forall n k,
  Forall (fun c => IsDecimalDigit c = true) ds ->
  0 <= k -> k + Z.of_nat (List.length ds) <= 9 -> 0 <= n < 10 ^ k ->
  fold_left accumulate ds n = fold_left (fun n c => n * 10 + (c - 48)) ds n /\
  0 <= fold_left accumulate ds n < 10 ^ (k + Z.of_nat (List.length ds)).
Proof.
  induction ds as [|c ds IH]; intros n k Hds Hk Hlen Hn; cbn [fold_left List.length].
  - rewrite Z.add_0_r. auto.
  - inversion Hds as [|? ? Hc Hds']; subst. cbn [List.length] in Hlen.
    assert (H8 : 10 ^ k <= 10 ^ 8) by (apply Z.pow_le_mono_r; lia).
    rewrite accumulate_digit by (auto; lia).
    assert (Hd : 48 <= c <= 57).
    { unfold IsDecimalDigit in Hc. apply andb_prop in Hc as [H1 H2].
      apply Z.leb_le in H1, H2. lia. }
    destruct (IH (n * 10 + (c - 48)) (k + 1)) as [E B]; auto; try lia.
    { rewrite Z.pow_add_r by lia. lia. }
    split; [exact E|].
    replace (k + Z.of_nat (S (List.length ds)))
      with (k + 1 + Z.of_nat (List.length ds)) by lia. exact B.
Qed.

Lemma take_while_stop p l c :
  l !! List.length (take_while p l) = Some c -> p c = false.
Proof.
  induction l as [|a l IH]; cbn; [discriminate|].
  destruct (p a) eqn:E; cbn; [exact IH|].
  intros [= <-]. exact E.
Qed.

Lemma advance_take_while_stop p r :
  0 <= index_ r -> p 0 = false ->
  p (ch_ (advance (List.length (take_while p (pending r))) r)) = false.
Proof.
  intros Hi Hp. rewrite advance_ch by done.
  destruct (pending r !! _) as [c|] eqn:E; [|exact Hp].
  exact (take_while_stop _ _ _ E).
Qed.

Lemma decimal_of_run run :
  Forall (fun c => IsDecimalDigit c = true) run ->
  fold_left accumulate (take (Z.to_nat kMaxSignificantDigits) run) 0 =
  decimal (take (Z.to_nat kMaxSignificantDigits) run).
Proof.
  intros Hrun. unfold decimal.
  apply (fold_accumulate_digits _ 0 0); [now apply Forall_take | lia | | lia].
  rewrite length_take. unfold kMaxSignificantDigits. lia.
Qed.

(** C2. At a decimal digit, [ReadUnsignedNumeral] consumes the whole maximal
    run of digits: the reader ends [length run] characters further, on a
    look-ahead that is not a digit, however long the run; the value returned
    is the decimal value of the first [kMaxSignificantDigits] = 9 digits of
    the run, the later ones being consumed without effect.  The count is the
    loop counter [i], so leading zeros take part in the nine. *)
Theorem ReadUnsignedNumeral_spec (r : t) :
  0 <= index_ r -> IsAsciiDigit r = true ->
  let run := take_while IsDecimalDigit (pending r) in
  let r' := (ReadUnsignedNumeral r).2 in
  (1 <= List.length run)%nat /\
  (ReadUnsignedNumeral r).1 = decimal (take 9 run) /\
  r' = advance (List.length run) r /\
  index_ r' = index_ r + Z.of_nat (List.length run) /\
  ch_ r' = default 0 (pending r !! List.length run) /\
  IsAsciiDigit r' = false.
Proof.
  intros Hi Hd run r'. subst r'. unfold ReadUnsignedNumeral.
  rewrite ReadUnsignedNumeral_loop_spec by lia. fold run. cbn [fst snd].
  split; [|split; [|split; [|split; [|split]]]].
  - subst run. rewrite digit_run_step by done. cbn. lia.
  - rewrite Z.sub_0_r. apply decimal_of_run, take_while_Forall.
  - reflexivity.
  - apply advance_index.
  - now apply advance_ch.
  - now apply advance_take_while_stop.
Qed.
End Numeral.

(** A numeral of fifteen digits: the value is that of the first nine and the
    reader ends on the [x] after the fifteenth. *)
Lemma ReadUnsignedNumeral_spec_witness :
  (InputReader.ReadUnsignedNumeral
     (InputReader.new Sample.cache Sample.numeral15)).1 = 123456789 /\
  InputReader.index_
    (InputReader.ReadUnsignedNumeral
       (InputReader.new Sample.cache Sample.numeral15)).2 = 16 /\
  InputReader.ch_
    (InputReader.ReadUnsignedNumeral
       (InputReader.new Sample.cache Sample.numeral15)).2 = 120.
Proof.
  destruct (ReadUnsignedNumeral_spec
              (InputReader.new Sample.cache Sample.numeral15))
    as (_ & Hv & _ & Hi & Hc & _).
  - vm_compute. discriminate.
  - reflexivity.
  - split; [exact Hv | split; [exact Hi | exact Hc]].
Defined.

(** Leading zeros count among the nine digits: ["0000000012"] reads as 1. *)
Example ReadUnsignedNumeral_leading_zeros :
  (InputReader.ReadUnsignedNumeral
     (InputReader.new Sample.cache [48; 48; 48; 48; 48; 48; 48; 48; 49; 50])).1
  = 1.
Proof. reflexivity. Qed.

(** ** ReadWord *)

Section Word.
Import InputReader ReaderView.
Variable AsciiAlphaToLower : Z -> Z.

Lemma word_run_step r :
  0 <= index_ r -> IsAsciiAlphaOrAbove r = true ->
  take_while IsAlphaOrAbove (pending r) =
  ch_ r :: take_while IsAlphaOrAbove (pending (Next r)).
Proof.
  intros Hi Ha. rewrite take_while_pending_Next by done.
  unfold pending at 1. cbn [take_while].
  change (IsAlphaOrAbove (ch_ r) = true) in Ha. now rewrite Ha.
Qed.

(** The first loop, over a buffer split at the write position. *)
Lemma ReadWord_scan_spec r prefix prefix_size len :
  forall done todo,
  0 <= index_ r -> 0 <= len -> prefix = done ++ todo ->
  (len < prefix_size -> Z.of_nat (List.length done) = len) ->
  prefix_size - len <= Z.of_nat (List.length todo) ->
  let run := take_while IsAlphaOrAbove (pending r) in
  let w := take (Z.to_nat (prefix_size - len)) run in
  ReadWord_scan AsciiAlphaToLower r prefix prefix_size len =
  (len + Z.of_nat (List.length run),
   done ++ map AsciiAlphaToLower w ++ drop (List.length w) todo,
   advance (List.length run) r).
Proof.
  funelim (ReadWord_scan AsciiAlphaToLower r prefix prefix_size len);
    intros done todo Hi Hlen Hsplit Hdone Htodo; cbn zeta.
  - rewrite (word_run_step r) by done. cbn [List.length advance].
    destruct (Z.ltb_spec len prefix_size) as [Hlt | Hge].
    + destruct todo as [|y todo]; [cbn in Htodo; lia|].
      match goal with IH : forall _ _, _ |- _ =>
        rewrite (IH (done ++ [AsciiAlphaToLower (ch_ r)]) todo) end;
        rewrite ?Next_index, ?length_app; cbn [List.length] in *; try lia.
      * replace (Z.to_nat (prefix_size - len))
          with (S (Z.to_nat (prefix_size - (len + 1)))) by lia.
        rewrite <- app_assoc. cbn [take map List.length drop app].
        apply (f_equal2 pair); [apply (f_equal2 pair); [lia | reflexivity] | reflexivity].
      * rewrite Hsplit, insert_app_r_alt by lia.
        replace (Z.to_nat len - List.length done)%nat with O by lia.
        cbn. now rewrite <- app_assoc.
    + match goal with IH : forall _ _, _ |- _ =>
        rewrite (IH done todo) end; rewrite ?Next_index; try lia; try done.
      replace (Z.to_nat (prefix_size - len)) with O by lia.
      replace (Z.to_nat (prefix_size - (len + 1))) with O by lia.
      cbn [take].
      apply (f_equal2 pair); [apply (f_equal2 pair); [lia | reflexivity] | reflexivity].
  - match goal with E : IsAsciiAlphaOrAbove r = false |- _ =>
      change (IsAlphaOrAbove (ch_ r) = false) in E;
      unfold pending; cbn [take_while]; rewrite E end.
    rewrite take_nil. cbn. now rewrite Z.add_0_r, Hsplit.
Qed.

(** The second loop, over a buffer split at [i]. *)
Lemma ReadWord_pad_spec prefix prefix_size i :
  forall done todo,
  prefix = done ++ todo ->
  (i < prefix_size -> Z.of_nat (List.length done) = i) ->
  prefix_size - i <= Z.of_nat (List.length todo) ->
  ReadWord_pad prefix prefix_size i =
  done ++ replicate (Z.to_nat (prefix_size - i)) 0
       ++ drop (Z.to_nat (prefix_size - i)) todo.
Proof.
  funelim (ReadWord_pad prefix prefix_size i);
    intros done todo Hsplit Hdone Htodo.
  - assert (Hlt : i < prefix_size) by (apply Z.ltb_lt; assumption).
    destruct todo as [|y todo]; [cbn in Htodo; lia|].
    match goal with IH : forall _ _, _ |- _ =>
      rewrite (IH (done ++ [0]) todo) end;
      rewrite ?length_app; cbn [List.length] in *; try lia.
    + replace (Z.to_nat (prefix_size - i))
        with (S (Z.to_nat (prefix_size - (i + 1)))) by lia.
      cbn [replicate drop app]. now rewrite <- app_assoc.
    + rewrite Hsplit, insert_app_r_alt by lia.
      replace (Z.to_nat i - List.length done)%nat with O by lia.
      cbn. now rewrite <- app_assoc.
  - assert (Hge : prefix_size <= i) by (apply Z.ltb_ge; assumption).
    replace (Z.to_nat (prefix_size - i)) with O by lia.
    now rewrite Hsplit.
Qed.

Lemma ReadWord_closed_form r prefix prefix_size :
  0 <= index_ r -> 0 <= prefix_size <= Z.of_nat (List.length prefix) ->
  let run := take_while IsAlphaOrAbove (pending r) in
  let p := Z.to_nat prefix_size in
  ReadWord AsciiAlphaToLower r prefix prefix_size =
  (Z.of_nat (List.length run),
   map AsciiAlphaToLower (take p run)
     ++ replicate (p - List.length run) 0 ++ drop p prefix,
   advance (List.length run) r).
Proof.
  intros Hi Hp run p. unfold ReadWord.
  rewrite (ReadWord_scan_spec r prefix prefix_size 0 [] prefix);
    cbn [List.length app]; try lia; try done.
  fold run. rewrite Z.sub_0_r, Z.add_0_l. fold p.
  f_equal. f_equal.
  set (w := take p run).
  rewrite (ReadWord_pad_spec _ prefix_size _ (map AsciiAlphaToLower w)
             (drop (List.length w) prefix)); try done.
  - rewrite drop_drop.
    assert (Hw : List.length w = Nat.min p (List.length run))
      by (subst w; apply length_take).
    replace (Z.to_nat (prefix_size - Z.of_nat (List.length run)))
      with (p - List.length run)%nat by lia.
    f_equal. f_equal. f_equal. lia.
  - intros Hlt. rewrite length_map. subst w. rewrite length_take. lia.
  - rewrite length_drop. subst w. rewrite length_take. lia.
Qed.

(** C6. [ReadWord] consumes the maximal run of characters not below ['A'],
    stores the lower-cased first [min (length run) prefix_size] of them at
    the front of the caller's buffer, zero-fills the buffer from there up to
    [prefix_size], leaves the rest of the buffer alone, and returns the
    length of the whole run, also when it exceeds [prefix_size]. *)
Theorem ReadWord_spec (r : t) (prefix : list Z) (prefix_size : Z) :
  0 <= index_ r -> 0 <= prefix_size <= Z.of_nat (List.length prefix) ->
  let run := take_while IsAlphaOrAbove (pending r) in
  let p := Z.to_nat prefix_size in
  let '(len, prefix', r') := ReadWord AsciiAlphaToLower r prefix prefix_size in
  len = Z.of_nat (List.length run) /\
  prefix' = map AsciiAlphaToLower (take (Nat.min (List.length run) p) run)
              ++ replicate (p - List.length run) 0 ++ drop p prefix /\
  r' = advance (List.length run) r /\
  index_ r' = index_ r + Z.of_nat (List.length run) /\
  IsAsciiAlphaOrAbove r' = false.
Proof.
  intros Hi Hp run p. rewrite ReadWord_closed_form by done. fold run p.
  split; [reflexivity|]. split; [|split; [reflexivity|split]].
  - f_equal. f_equal.
    destruct (Nat.le_ge_cases (List.length run) p) as [H|H].
    + rewrite Nat.min_l by done. now rewrite !take_ge by lia.
    + now rewrite Nat.min_r by done.
  - apply advance_index.
  - apply (advance_take_while_stop IsAlphaOrAbove); done.
Qed.
End Word.

(** The word [PM] before a blank, read into a buffer of three. *)
Lemma ReadWord_spec_witness :
  InputReader.ReadWord Sample.lower
    (InputReader.new Sample.cache Sample.word_pm) [7; 7; 7] 3 =
  (2, [112; 109; 0],
   ReaderView.advance 2 (InputReader.new Sample.cache Sample.word_pm)).
Proof.
  generalize (ReadWord_spec Sample.lower
                (InputReader.new Sample.cache Sample.word_pm) [7; 7; 7] 3
                ltac:(vm_compute; discriminate)
                ltac:(split; vm_compute; discriminate)).
  cbv zeta.
  destruct (InputReader.ReadWord _ _ [7; 7; 7] 3) as [[len prefix'] r'].
  intros (-> & -> & -> & _). reflexivity.
Defined.

(** ** SkipParentheses *)

Section Parentheses.
Import InputReader ReaderView.

Lemma SkipParentheses_loop_eq r balance :
  SkipParentheses_loop r balance =
  if (0 <? rebalance (ch_ r) balance) && negb (ch_ (Next r) =? 0)
  then SkipParentheses_loop (Next r) (rebalance (ch_ r) balance)
  else Next r.
Proof.
  rewrite SkipParentheses_loop_equation_1.
  destruct (inspect (_ && _)) as [[] e];
    unfold SkipParentheses_loop_unfold_clause_1; rewrite e; reflexivity.
Qed.

Lemma rebalance_lower c b : b - 1 <= rebalance c b.
Proof. unfold rebalance. repeat destruct (_ =? _); lia. Qed.

Lemma pending_Next_cons r a c l :
  0 <= index_ r -> pending r = a :: c :: l -> pending (Next r) = c :: l.
Proof.
  intros Hi E. rewrite pending_Next by done.
  unfold pending in E. injection E as _ ->. reflexivity.
Qed.

Lemma pending_Next_live r :
  0 <= index_ r -> ch_ (Next r) <> 0 ->
  pending r = ch_ r :: pending (Next r).
Proof.
  intros Hi Hc. rewrite pending_Next by done.
  rewrite Next_ch in Hc by done. unfold pending.
  destruct (buffer_ r !! _) as [c|] eqn:E; [|done].
  rewrite (drop_S _ _ _ E). reflexivity.
Qed.

(** The loop stops at the first look-ahead at which the depth is no longer
    positive or the sentinel shows. *)
Lemma SkipParentheses_loop_spec r balance :
  0 <= index_ r -> 0 <= rebalance (ch_ r) balance ->
  exists k : nat,
    (1 <= k <= List.length (pending r))%nat /\
    SkipParentheses_loop r balance = advance k r /\
    (nesting balance (take k (pending r)) = 0 \/ ch_ (advance k r) = 0) /\
    (forall j : nat, (1 <= j < k)%nat ->
       0 < nesting balance (take j (pending r)) /\ ch_ (advance j r) <> 0).
Proof.
  funelim (SkipParentheses_loop r balance); intros Hi Hb.
  - match goal with E : (_ && _) = true |- _ =>
      destruct (andb_prop _ _ E) as [Hpos Hlive] end.
    apply Z.ltb_lt in Hpos. apply negb_true_iff, Z.eqb_neq in Hlive.
    match goal with IH : _ -> _ -> exists _, _ |- _ =>
      destruct IH as (k & Hk & Hres & Hstop & Hrun) end.
    { rewrite Next_index. lia. }
    { pose proof (rebalance_lower (ch_ (Next r)) (rebalance (ch_ r) balance)). lia. }
    rewrite (pending_Next_live r) by done.
    exists (S k). cbn [List.length take advance]. unfold nesting.
    cbn [fold_left]. fold (nesting (rebalance (ch_ r) balance)).
    split; [lia|]. split; [exact Hres|]. split; [exact Hstop|].
    intros [|j] Hj; [lia|]. destruct j as [|j].
    + cbn [take advance]. unfold nesting. cbn [fold_left]. auto.
    + cbn [take advance]. unfold nesting. cbn [fold_left].
      apply (Hrun (S j)). lia.
  - match goal with E : (_ && _) = false |- _ =>
      destruct (proj1 (andb_false_iff _ _) E) as [Hpos | Hend] end.
    + apply Z.ltb_ge in Hpos. exists 1%nat. unfold pending.
      cbn [List.length take advance]. rewrite firstn_O. unfold nesting.
      cbn [fold_left].
      split; [lia|]. split; [reflexivity|]. split; [left; lia|]. intros j Hj; lia.
    + apply negb_false_iff, Z.eqb_eq in Hend. exists 1%nat. unfold pending.
      cbn [List.length take advance].
      split; [lia|]. split; [reflexivity|]. split; [now right|]. intros j Hj; lia.
Qed.

Lemma advance_add a b r : advance (a + b) r = advance b (advance a r).
Proof.
  revert r. induction a as [|a IH]; intros r; [done|]. cbn. apply IH.
Qed.

Lemma pending_advance l : forall r c l',
  0 <= index_ r -> pending r = l ++ c :: l' ->
  pending (advance (List.length l) r) = c :: l'.
Proof.
  induction l as [|a l IH]; intros r c l' Hi E; [exact E|].
  cbn [List.length advance]. apply IH; [rewrite Next_index; lia|].
  cbn [app] in E. destruct l; cbn [app] in *; eapply pending_Next_cons; eauto.
Qed.

Lemma balanced_head w rest : balanced w -> hd 41 (w ++ 41 :: rest) <> 0.
Proof. intros [| |]; cbn; lia. Qed.

Lemma ch_Next_hd r a l d :
  0 <= index_ r -> pending r = a :: l -> l <> [] -> ch_ (Next r) = hd d l.
Proof.
  intros Hi E Hl. destruct l as [|c l]; [done|].
  pose proof (pending_Next_cons r a c l Hi E) as E'.
  unfold pending in E'. now injection E'.
Qed.

(** Across a balanced stretch followed by a closing parenthesis the loop
    keeps its depth. *)
Lemma SkipParentheses_loop_balanced w :
  balanced w -> forall r b rest,
  0 <= index_ r -> pending r = w ++ 41 :: rest -> 0 < b ->
  SkipParentheses_loop r b = SkipParentheses_loop (advance (List.length w) r) b.
Proof.
  induction 1 as [|c w Hc1 Hc2 Hc0 Hw IH | u w Hu IHu Hw IHw];
    intros r b rest Hi E Hb.
  - reflexivity.
  - cbn [app] in E.
    assert (Hch : ch_ r = c) by (unfold pending in E; now injection E).
    rewrite SkipParentheses_loop_eq, Hch.
    assert (Hre : rebalance c b = b).
    { unfold rebalance.
      destruct (Z.eqb_spec c 41); [done|]. destruct (Z.eqb_spec c 40); done. }
    rewrite Hre. apply Z.ltb_lt in Hb as Hb'. rewrite Hb'.
    rewrite (ch_Next_hd r c _ 41 Hi E) by (now destruct w).
    pose proof (balanced_head w rest Hw) as Hhd.
    apply Z.eqb_neq in Hhd. rewrite Hhd. cbn [andb negb List.length advance].
    apply (IH _ _ rest); [rewrite Next_index; lia | | done].
    destruct w; cbn [app] in *; eapply pending_Next_cons; eauto.
  - cbn [app] in E.
    assert (Hch : ch_ r = 40) by (unfold pending in E; now injection E).
    rewrite SkipParentheses_loop_eq, Hch.
    change (rebalance 40 b) with (b + 1).
    assert (Hb1 : (0 <? b + 1) = true) by (apply Z.ltb_lt; lia). rewrite Hb1.
    rewrite <- app_assoc in E. cbn [app] in E.
    rewrite (ch_Next_hd r 40 _ 41 Hi E) by (now destruct u).
    pose proof (balanced_head u (w ++ 41 :: rest) Hu) as Hhd.
    apply Z.eqb_neq in Hhd. rewrite Hhd. cbn [andb negb].
    assert (E1 : pending (Next r) = u ++ 41 :: w ++ 41 :: rest).
    { destruct u; cbn [app] in *; eapply pending_Next_cons; eauto. }
    rewrite (IHu (Next r) (b + 1) (w ++ 41 :: rest)); try done;
      [|rewrite Next_index; lia|lia].
    set (r1 := advance (List.length u) (Next r)).
    assert (Hi1 : 0 <= index_ r1)
      by (subst r1; rewrite advance_index, Next_index; lia).
    assert (E2 : pending r1 = 41 :: w ++ 41 :: rest)
      by (apply pending_advance; [rewrite Next_index; lia | exact E1]).
    assert (Hch1 : ch_ r1 = 41) by (unfold pending in E2; now injection E2).
    rewrite SkipParentheses_loop_eq, Hch1.
    change (rebalance 41 (b + 1)) with (b + 1 - 1).
    replace (b + 1 - 1) with b by lia.
    apply Z.ltb_lt in Hb as Hb'. rewrite Hb'.
    rewrite (ch_Next_hd r1 41 _ 41 Hi1 E2) by (now destruct w).
    pose proof (balanced_head w rest Hw) as Hhd'.
    apply Z.eqb_neq in Hhd'. rewrite Hhd'. cbn [andb negb].
    rewrite (IHw (Next r1) b rest); try done;
      [|rewrite Next_index; lia
       |destruct w; cbn [app] in *; eapply pending_Next_cons; eauto].
    f_equal. subst r1. cbn [List.length]. rewrite length_app.
    cbn [List.length advance]. now rewrite advance_add.
Qed.

Lemma SkipParentheses_balanced r body rest :
  0 <= index_ r -> pending r = 40 :: body ++ 41 :: rest -> balanced body ->
  SkipParentheses r = (true, advance (List.length body + 2) r) /\
  pending (advance (List.length body + 2) r) =
    match rest with [] => [0] | _ => rest end.
Proof.
  intros Hi E Hbody.
  assert (Hch : ch_ r = 40) by (unfold pending in E; now injection E).
  assert (E1 : pending (Next r) = body ++ 41 :: rest)
    by (destruct body; cbn [app] in *; eapply pending_Next_cons; eauto).
  remember (advance (List.length body) (Next r)) as r1 eqn:Hr1.
  assert (Hi1 : 0 <= index_ r1)
    by (rewrite Hr1, advance_index, Next_index; lia).
  assert (E2 : pending r1 = 41 :: rest)
    by (rewrite Hr1; apply pending_advance;
        [rewrite Next_index; lia | exact E1]).
  assert (Hch1 : ch_ r1 = 41) by (unfold pending in E2; now injection E2).
  assert (Hadv : advance (List.length body + 2) r = Next r1).
  { rewrite advance_add. cbn [advance]. rewrite Hr1.
    change (advance (List.length body) (Next r))
      with (advance (S (List.length body)) r).
    now rewrite advance_succ. }
  split.
  - unfold SkipParentheses. rewrite Hch. cbn [Z.eqb Pos.eqb negb].
    rewrite SkipParentheses_loop_eq, Hch.
    change (rebalance 40 0) with 1.
    rewrite (ch_Next_hd r 40 _ 41 Hi E) by (now destruct body).
    pose proof (balanced_head body rest Hbody) as Hhd.
    apply Z.eqb_neq in Hhd. rewrite Hhd. cbn [Z.ltb Z.compare andb negb].
    rewrite (SkipParentheses_loop_balanced body Hbody (Next r) 1 rest);
      [|rewrite Next_index; lia | exact E1 | lia].
    rewrite <- Hr1, SkipParentheses_loop_eq, Hch1.
    change (rebalance 41 1) with 0. cbn [Z.ltb Z.compare andb].
    now rewrite Hadv.
  - rewrite Hadv, pending_Next by done.
    unfold pending in E2. injection E2 as _ ->. now destruct rest.
Qed.

(** C5. [SkipParentheses] answers [false] and leaves the reader as it is when
    the look-ahead is not ['(']; on ['('] it answers [true] after [k >= 1]
    calls of [Next], where [k] is the first count at which the nesting
    depth of the consumed characters is back to zero or the look-ahead is
    the end sentinel; on input whose parentheses match, nested ones
    included, the reader ends right after the parenthesis closing the
    opening one. *)
Theorem SkipParentheses_spec (r : t) :
  0 <= index_ r ->
  (ch_ r <> 40 -> SkipParentheses r = (false, r)) /\
  (ch_ r = 40 ->
     exists k : nat,
       (1 <= k <= List.length (pending r))%nat /\
       SkipParentheses r = (true, advance k r) /\
       (nesting 0 (take k (pending r)) = 0 \/ IsEnd (advance k r) = true) /\
       (forall j : nat, (1 <= j < k)%nat ->
          0 < nesting 0 (take j (pending r)) /\
          IsEnd (advance j r) = false)) /\
  (forall body rest,
     pending r = 40 :: body ++ 41 :: rest -> balanced body ->
     SkipParentheses r = (true, advance (List.length body + 2) r) /\
     pending (advance (List.length body + 2) r) =
       match rest with [] => [0] | _ => rest end).
Proof.
  intros Hi. split; [|split].
  - intros Hc. unfold SkipParentheses.
    apply Z.eqb_neq in Hc. now rewrite Hc.
  - intros Hc. unfold SkipParentheses. rewrite Hc. cbn [Z.eqb Pos.eqb negb].
    destruct (SkipParentheses_loop_spec r 0 Hi) as (k & Hk & Hres & Hstop & Hrun).
    { rewrite Hc. cbn. lia. }
    exists k. split; [exact Hk|]. split; [now rewrite Hres|].
    unfold IsEnd. split.
    + destruct Hstop as [H0 | H0]; [now left | right; now apply Z.eqb_eq].
    + intros j Hj. destruct (Hrun j Hj) as [H1 H2].
      split; [exact H1 | now apply Z.eqb_neq].
  - intros body rest E Hbody. now apply SkipParentheses_balanced.
Qed.

End Parentheses.

(** The text [(a(b))c]: the comment ends at the second closing parenthesis. *)
Lemma SkipParentheses_spec_witness :
  InputReader.SkipParentheses
    (InputReader.new Sample.cache Sample.nested_comment) =
  (true,
   ReaderView.advance 6 (InputReader.new Sample.cache Sample.nested_comment)) /\
  ReaderView.pending
    (ReaderView.advance 6
       (InputReader.new Sample.cache Sample.nested_comment)) = [99].
Proof.
  destruct (SkipParentheses_spec
              (InputReader.new Sample.cache Sample.nested_comment))
    as (_ & _ & H).
  - vm_compute. discriminate.
  - apply (H [97; 40; 98; 41] [99]); [reflexivity|].
    apply ReaderView.balanced_char; [lia | lia | lia |].
    apply (ReaderView.balanced_group [98] []).
    + apply ReaderView.balanced_char; [lia | lia | lia |].
      apply ReaderView.balanced_nil.
    + apply ReaderView.balanced_nil.
Defined.

(** ** Termination of the scanning loops *)

Section Termination.
Import InputReader ReaderView.
Variable AsciiAlphaToLower : Z -> Z.

Lemma ReadWord_scan_eq r prefix prefix_size len :
  ReadWord_scan AsciiAlphaToLower r prefix prefix_size len =
  if IsAsciiAlphaOrAbove r
  then ReadWord_scan AsciiAlphaToLower (Next r)
         (if len <? prefix_size
          then <[Z.to_nat len := AsciiAlphaToLower (ch_ r)]> prefix
          else prefix)
         prefix_size (len + 1)
  else (len, prefix, r).
Proof.
  rewrite ReadWord_scan_equation_1.
  destruct (inspect (IsAsciiAlphaOrAbove r)) as [[] e];
    unfold ReadWord_scan_unfold_clause_1; rewrite e; reflexivity.
Qed.

Lemma sentinel_stops r :
  IsEnd r = true -> IsAsciiDigit r = false /\ IsAsciiAlphaOrAbove r = false.
Proof.
  unfold IsEnd, IsAsciiDigit, IsAsciiAlphaOrAbove.
  intros E. apply Z.eqb_eq in E. now rewrite E.
Qed.

Lemma sentinel_stops_parentheses r balance :
  IsEnd (Next r) = true -> SkipParentheses_loop r balance = Next r.
Proof.
  unfold IsEnd. intros E. rewrite SkipParentheses_loop_eq, E.
  now rewrite andb_false_r.
Qed.

(** C9. The scanning loops terminate on every buffer.  [Next] moves the
    cursor by one; past the end of the buffer it loads the end sentinel; the
    sentinel is neither a digit nor a letter-or-above and ends the
    parenthesis loop; every iteration of the three loops lowers the measure
    [remaining], on which they are defined by well-founded recursion, and the
    functions so defined obey the equations of the loops; and each of
    [ReadUnsignedNumeral], [ReadWord] and [SkipParentheses] returns after at
    most as many calls of [Next] as characters are pending. *)
Theorem scanning_loops_terminate (r : t) (prefix : list Z) (prefix_size : Z) :
  0 <= index_ r -> 0 <= prefix_size <= Z.of_nat (List.length prefix) ->
  index_ (Next r) = index_ r + 1 /\
  (forall n i,
     ReadUnsignedNumeral_loop r n i =
     if IsAsciiDigit r
     then ReadUnsignedNumeral_loop (Next r)
            (if i <? kMaxSignificantDigits then accumulate n (ch_ r) else n)
            (i + 1)
     else (n, r)) /\
  (forall len,
     ReadWord_scan AsciiAlphaToLower r prefix prefix_size len =
     if IsAsciiAlphaOrAbove r
     then ReadWord_scan AsciiAlphaToLower (Next r)
            (if len <? prefix_size
             then <[Z.to_nat len := AsciiAlphaToLower (ch_ r)]> prefix
             else prefix)
            prefix_size (len + 1)
     else (len, prefix, r)) /\
  (forall balance,
     SkipParentheses_loop r balance =
     if (0 <? rebalance (ch_ r) balance) && negb (ch_ (Next r) =? 0)
     then SkipParentheses_loop (Next r) (rebalance (ch_ r) balance)
     else Next r) /\
  (length r <= index_ r -> IsEnd (Next r) = true) /\
  (IsEnd r = true -> IsAsciiDigit r = false /\ IsAsciiAlphaOrAbove r = false) /\
  (forall balance,
     IsEnd (Next r) = true -> SkipParentheses_loop r balance = Next r) /\
  (IsAsciiDigit r = true -> (remaining (Next r) < remaining r)%nat) /\
  (IsAsciiAlphaOrAbove r = true -> (remaining (Next r) < remaining r)%nat) /\
  (forall balance,
     (0 <? rebalance (ch_ r) balance) && negb (IsEnd (Next r)) = true ->
     (remaining (Next r) < remaining r)%nat) /\
  (exists k : nat, (k <= List.length (pending r))%nat /\
     (ReadUnsignedNumeral r).2 = advance k r) /\
  (exists k : nat, (k <= List.length (pending r))%nat /\
     (ReadWord AsciiAlphaToLower r prefix prefix_size).2 = advance k r) /\
  (exists k : nat, (k <= List.length (pending r))%nat /\
     (SkipParentheses r).2 = advance k r).
Proof.
  intros Hi Hp.
  split; [apply Next_index|].
  split; [intros n i; apply ReadUnsignedNumeral_loop_eq|].
  split; [intros len; apply ReadWord_scan_eq|].
  split; [intros balance; apply SkipParentheses_loop_eq|].
  split; [intros H; unfold IsEnd; rewrite (Next_past_end r H); reflexivity|].
  split; [apply sentinel_stops|].
  split; [intros balance; apply sentinel_stops_parentheses|].
  split.
  { intros Hd. now apply remaining_Next_before, digit_live. }
  split.
  { intros Ha. now apply remaining_Next_before, alpha_live. }
  split.
  { intros balance Hc. apply remaining_Next_after.
    apply andb_prop in Hc as [_ Hc]. unfold IsEnd in Hc.
    now apply negb_true_iff, Z.eqb_neq in Hc. }
  split; [|split].
  - exists (List.length (take_while IsDecimalDigit (pending r))).
    split; [apply take_while_length|].
    unfold ReadUnsignedNumeral.
    now rewrite ReadUnsignedNumeral_loop_spec by lia.
  - exists (List.length (take_while IsAlphaOrAbove (pending r))).
    split; [apply take_while_length|].
    now rewrite ReadWord_closed_form by done.
  - unfold SkipParentheses.
    destruct (Z.eqb_spec (ch_ r) 40) as [Hc | Hc]; cbn [negb snd].
    + destruct (SkipParentheses_loop_spec r 0 Hi) as (k & Hk & Hres & _).
      { rewrite Hc. cbn. lia. }
      exists k. split; [lia | exact Hres].
    + exists O. split; [lia | reflexivity].
Qed.

End Termination.

(** A reader on the only digit of ["7"]: one iteration, then the sentinel. *)
Lemma scanning_loops_terminate_witness :
  InputReader.index_ (InputReader.Next (InputReader.new Sample.cache Sample.digit7)) = 2 /\
  InputReader.IsEnd (InputReader.Next (InputReader.new Sample.cache Sample.digit7)) = true /\
  (InputReader.remaining (InputReader.Next (InputReader.new Sample.cache Sample.digit7))
   < InputReader.remaining (InputReader.new Sample.cache Sample.digit7))%nat.
Proof.
  destruct (scanning_loops_terminate Sample.lower
              (InputReader.new Sample.cache Sample.digit7) [] 0)
    as (H1 & _ & _ & _ & H2 & _ & _ & H5 & _).
  - vm_compute. discriminate.
  - split; vm_compute; discriminate.
  - split; [exact H1|]. split; [apply H2; vm_compute; discriminate|].
    apply H5. reflexivity.
Defined.

(** ** An embedded NUL and the end of input *)

Section EmbeddedNul.
Import InputReader ReaderView.

Lemma new_at_end cache s : ch_ (advance (List.length s) (new cache s)) = 0.
Proof.
  unfold new. rewrite advance_ch by (cbn; lia).
  rewrite pending_Next by (cbn; lia). cbn [index_ buffer_].
  change (Z.to_nat 0) with O. rewrite drop_0.
  destruct s as [|a l]; [reflexivity|].
  rewrite lookup_ge_None_2; [reflexivity | lia].
Qed.

Variable AsciiAlphaToLower : Z -> Z.
Variables pre post : list Z.

(** The buffer with a NUL and more text after [pre]. *)
Let buf : list Z := pre ++ 0 :: post.

Let before_nul := before_end pre.

Lemma Next_rebase r :
  buffer_ r = pre -> 0 <= index_ r <= Z.of_nat (List.length pre) ->
  Next (rebase buf r) = rebase buf (Next r).
Proof.
  intros Hb Hi. unfold Next, rebase, length. cbn [index_ buffer_ ch_ unicode_cache_].
  f_equal. rewrite Hb. subst buf. rewrite length_app. cbn [List.length].
  destruct (Z.ltb_spec (index_ r) (Z.of_nat (List.length pre + S (List.length post))));
    [|lia].
  destruct (Z.ltb_spec (index_ r) (Z.of_nat (List.length pre))).
  - now rewrite lookup_app_l by lia.
  - rewrite lookup_app_r by lia.
    replace (Z.to_nat (index_ r) - List.length pre)%nat with O by lia.
    reflexivity.
Qed.

Lemma before_nul_Next r :
  before_nul r -> ch_ r <> 0 ->
  Next (rebase buf r) = rebase buf (Next r) /\ before_nul (Next r).
Proof.
  intros (Hb & Hi & [Hle | H0]) Hc; [|contradiction].
  split; [apply Next_rebase; [done | lia]|].
  split; [done|]. split; [rewrite Next_index; lia|].
  destruct (Z.eq_dec (index_ r) (Z.of_nat (List.length pre))) as [E | E].
  - right. apply Next_past_end. unfold length. rewrite Hb. lia.
  - left. rewrite Next_index. lia.
Qed.

Lemma ReadUnsignedNumeral_loop_rebase r n i :
  before_nul r ->
  ReadUnsignedNumeral_loop (rebase buf r) n i =
  prod_map id (rebase buf) (ReadUnsignedNumeral_loop r n i) /\
  before_nul (ReadUnsignedNumeral_loop r n i).2.
Proof.
  funelim (ReadUnsignedNumeral_loop r n i); intros Hr;
    rewrite (ReadUnsignedNumeral_loop_eq (rebase buf r));
    change (IsAsciiDigit (rebase buf r)) with (IsAsciiDigit r);
    match goal with E : IsAsciiDigit r = _ |- _ => rewrite E end;
    [|now split].
  destruct (before_nul_Next r Hr) as [HN Hr'].
  { now apply digit_live. }
  rewrite HN. cbn [rebase ch_]. auto.
Qed.

Lemma ReadWord_scan_rebase r prefix prefix_size len :
  before_nul r ->
  ReadWord_scan AsciiAlphaToLower (rebase buf r) prefix prefix_size len =
  prod_map id (rebase buf)
    (ReadWord_scan AsciiAlphaToLower r prefix prefix_size len) /\
  before_nul (ReadWord_scan AsciiAlphaToLower r prefix prefix_size len).2.
Proof.
  funelim (ReadWord_scan AsciiAlphaToLower r prefix prefix_size len);
    intros Hr;
    rewrite (ReadWord_scan_equation_1 AsciiAlphaToLower (rebase buf r)).
  - destruct (before_nul_Next r Hr) as [HN Hr'].
    { now apply alpha_live. }
    destruct (inspect (IsAsciiAlphaOrAbove (rebase buf r))) as [[] e'];
      [|change (IsAsciiAlphaOrAbove r = false) in e'; congruence].
    cbn [ReadWord_scan_unfold_clause_1]. rewrite HN. cbn [rebase ch_]. auto.
  - destruct (inspect (IsAsciiAlphaOrAbove (rebase buf r))) as [[] e'];
      [change (IsAsciiAlphaOrAbove r = true) in e'; congruence|].
    now split.
Qed.

Lemma SkipParentheses_loop_rebase r balance :
  before_nul r -> ch_ r <> 0 ->
  SkipParentheses_loop (rebase buf r) balance =
  rebase buf (SkipParentheses_loop r balance) /\
  before_nul (SkipParentheses_loop r balance).
Proof.
  funelim (SkipParentheses_loop r balance); intros Hr Hc0;
    destruct (before_nul_Next r Hr Hc0) as [HN Hr'];
    rewrite (SkipParentheses_loop_eq (rebase buf r)), HN;
    change (ch_ (rebase buf (Next r))) with (ch_ (Next r));
    change (ch_ (rebase buf r)) with (ch_ r);
    match goal with E : (_ && _) = _ |- _ => rewrite E end;
    [|now split].
  match goal with IH : _ -> _ -> _ /\ _ |- _ => apply IH end; [done|].
  destruct (andb_prop _ _ Hc) as [_ Hlive].
  now apply negb_true_iff, Z.eqb_neq in Hlive.
Qed.

Lemma before_nul_new cache : before_nul (new cache pre).
Proof.
  unfold before_nul, before_end, new.
  split; [reflexivity|]. split; [cbn; lia|].
  destruct pre; [right; reflexivity | left; cbn [Next index_ List.length]; lia].
Qed.

Lemma new_rebase cache : new cache buf = rebase buf (new cache pre).
Proof.
  unfold new. rewrite <- Next_rebase; [reflexivity | reflexivity | cbn; lia].
Qed.

Lemma advance_rebase k : forall r,
  before_nul r -> index_ r + Z.of_nat k <= Z.of_nat (List.length pre) + 1 ->
  advance k (rebase buf r) = rebase buf (advance k r) /\
  before_nul (advance k r).
Proof.
  induction k as [|k IH]; intros r Hr Hk; [now split|].
  cbn [advance]. destruct Hr as (Hb & Hi & Hle).
  assert (Hle' : index_ r <= Z.of_nat (List.length pre)) by lia.
  rewrite Next_rebase by (done || lia).
  apply IH; [|rewrite Next_index; lia].
  split; [done|]. split; [rewrite Next_index; lia|].
  destruct (Z.eq_dec (index_ r) (Z.of_nat (List.length pre))) as [E | E].
  - right. apply Next_past_end. unfold length. rewrite Hb. lia.
  - left. rewrite Next_index. lia.
Qed.

(** C10, as the code has it.  Up to an embedded NUL the reader over
    [pre ++ 0 :: post] is the reader over [pre]; at the NUL [IsEnd] holds;
    and [ReadUnsignedNumeral], [ReadWord], [SkipParentheses], [Skip c] for a
    [c] other than NUL and [SkipWhiteSpace] (NUL not being white space),
    started at or before the NUL, return what they return on the buffer cut
    at the NUL and leave the reader at or before it: they load no character
    of [post].  [Next] itself is not covered: it tests only the buffer
    length. *)
Theorem embedded_nul_ends_scanning
    (cache : UnicodeCache) (r : t) (prefix : list Z) (prefix_size : Z) :
  before_end pre r ->
  let buf := pre ++ 0 :: post in
  let r0 := rebase buf r in
  (forall k : nat, (k <= List.length pre)%nat ->
     advance k (new cache buf) = rebase buf (advance k (new cache pre))) /\
  IsEnd (advance (List.length pre) (new cache buf)) = true /\
  (ReadUnsignedNumeral r0 = prod_map id (rebase buf) (ReadUnsignedNumeral r) /\
   before_end pre (ReadUnsignedNumeral r).2) /\
  (ReadWord AsciiAlphaToLower r0 prefix prefix_size =
     prod_map id (rebase buf) (ReadWord AsciiAlphaToLower r prefix prefix_size) /\
   before_end pre (ReadWord AsciiAlphaToLower r prefix prefix_size).2) /\
  (SkipParentheses r0 = prod_map id (rebase buf) (SkipParentheses r) /\
   before_end pre (SkipParentheses r).2) /\
  (forall c, c <> 0 ->
     Skip r0 c = prod_map id (rebase buf) (Skip r c) /\
     before_end pre (Skip r c).2) /\
  (IsWhiteSpace (unicode_cache_ r) 0 = false ->
     SkipWhiteSpace r0 = prod_map id (rebase buf) (SkipWhiteSpace r) /\
     before_end pre (SkipWhiteSpace r).2).
Proof.
  intros Hr buf' r0. subst r0 buf'. fold buf. fold before_nul in Hr |- *.
  assert (Hadv : forall k : nat, (k <= List.length pre)%nat ->
     advance k (new cache buf) = rebase buf (advance k (new cache pre))).
  { intros k Hk. rewrite new_rebase.
    apply advance_rebase; [apply before_nul_new | cbn; lia]. }
  split; [exact Hadv|]. split.
  { rewrite Hadv by lia. unfold IsEnd. cbn [rebase ch_].
    now rewrite new_at_end. }
  split; [apply ReadUnsignedNumeral_loop_rebase; done|].
  split.
  { unfold ReadWord.
    destruct (ReadWord_scan_rebase r prefix prefix_size 0 Hr) as [E Hb].
    rewrite E.
    destruct (ReadWord_scan AsciiAlphaToLower r prefix prefix_size 0)
      as [[len prefix'] r'].
    now split. }
  split.
  { unfold SkipParentheses. change (ch_ (rebase buf r)) with (ch_ r).
    destruct (Z.eqb_spec (ch_ r) 40) as [E | E]; cbn [negb]; [|now split].
    destruct (SkipParentheses_loop_rebase r 0 Hr) as [E' Hb]; [lia|].
    rewrite E'. now split. }
  split.
  { intros c Hc. unfold Skip. change (ch_ (rebase buf r)) with (ch_ r).
    destruct (Z.eqb_spec (ch_ r) c) as [E | E]; [|now split].
    destruct (before_nul_Next r Hr) as [HN Hb]; [lia|].
    rewrite HN. now split. }
  intros Hws. unfold SkipWhiteSpace.
  change (ch_ (rebase buf r)) with (ch_ r).
  change (unicode_cache_ (rebase buf r)) with (unicode_cache_ r).
  destruct (IsWhiteSpace (unicode_cache_ r) (ch_ r)) eqn:E; [|now split].
  destruct (before_nul_Next r Hr) as [HN Hb]; [congruence|].
  rewrite HN. now split.
Qed.

End EmbeddedNul.

(** On ["1"], NUL, ["2"] the numeral is read as on ["1"]. *)
Lemma embedded_nul_ends_scanning_witness :
  InputReader.ReadUnsignedNumeral
    (ReaderView.rebase Sample.with_nul (InputReader.new Sample.cache [49])) =
  prod_map id (ReaderView.rebase Sample.with_nul)
    (InputReader.ReadUnsignedNumeral (InputReader.new Sample.cache [49])).
Proof.
  destruct (embedded_nul_ends_scanning Sample.lower [49] [50] Sample.cache
              (InputReader.new Sample.cache [49]) [] 0) as (_ & _ & [H _] & _).
  - split; [reflexivity|]. split; [vm_compute; discriminate|].
    left. vm_compute. discriminate.
  - exact H.
Defined.

(** C10, as stated, fails for [Next]: on ["1"], NUL, ["2"] the reader that
    stands on the NUL reports the end, as the reader at the end of ["1"]
    does, yet its [Next] loads the ["2"] behind the NUL, where the other
    loads the sentinel. *)
Lemma Next_reads_past_embedded_nul :
  InputReader.IsEnd
    (InputReader.Next (InputReader.new Sample.cache Sample.with_nul)) = true /\
  InputReader.IsEnd
    (InputReader.Next (InputReader.new Sample.cache [49])) = true /\
  InputReader.ch_
    (InputReader.Next
       (InputReader.Next (InputReader.new Sample.cache Sample.with_nul))) = 50 /\
  InputReader.ch_
    (InputReader.Next
       (InputReader.Next (InputReader.new Sample.cache [49]))) = 0.
Proof. repeat split. Qed.

(** ** TimeComposer *)

Section TimeComposerSpec.
Import TimeComposer.

Lemma take_insert_snoc (l : list Z) (i : nat) (x : Z) :
  (i < List.length l)%nat -> take (S i) (<[i:=x]> l) = take i l ++ [x].
Proof.
  intros Hi.
  rewrite (take_S_r _ _ x) by now apply list_lookup_insert_eq.
  now rewrite take_insert_ge.
Qed.

Lemma AddFinal_loop_eq c :
  AddFinal_loop c =
  if index_ c <? kSize
  then AddFinal_loop {| comp_ := <[Z.to_nat (index_ c) := 0]> (comp_ c);
                        index_ := index_ c + 1;
                        hour_offset_ := hour_offset_ c |}
  else c.
Proof.
  rewrite AddFinal_loop_equation_1.
  destruct (inspect (index_ c <? kSize)) as [[] e];
    unfold AddFinal_loop_unfold_clause_1; rewrite e; reflexivity.
Qed.

(** The zero-filling loop, over an array filled up to [index_]. *)
Lemma AddFinal_loop_spec c :
  0 <= index_ c <= kSize -> Z.of_nat (List.length (comp_ c)) = kSize ->
  AddFinal_loop c =
  {| comp_ := take (Z.to_nat (index_ c)) (comp_ c)
                ++ replicate (Z.to_nat (kSize - index_ c)) 0;
     index_ := kSize;
     hour_offset_ := hour_offset_ c |}.
Proof.
  funelim (AddFinal_loop c); intros Hrange Hlen.
  - assert (Hlt : index_ c < kSize) by (apply Z.ltb_lt; assumption).
    match goal with IH : _ -> _ -> _ = _ |- _ => rewrite IH end;
      cbn [comp_ index_ hour_offset_]; rewrite ?length_insert; try lia.
    f_equal.
    replace (Z.to_nat (index_ c + 1)) with (S (Z.to_nat (index_ c))) by lia.
    rewrite take_insert_snoc by lia.
    replace (Z.to_nat (kSize - index_ c))
      with (S (Z.to_nat (kSize - (index_ c + 1)))) by lia.
    cbn [replicate]. now rewrite <- app_assoc.
  - assert (Hge : kSize <= index_ c) by (apply Z.ltb_ge; assumption).
    replace (Z.to_nat (kSize - index_ c)) with O by lia.
    cbn [replicate]. rewrite app_nil_r, take_ge by lia.
    destruct c as [comp idx off]. cbn in *. f_equal. lia.
Qed.

(** C7.  [Add] stores [n] in slot [index_] and moves on while fewer than
    four slots are filled, and refuses once four are; a successful
    [AddFinal] stores [n] in slot [index_], zeroes every later slot and
    leaves four slots filled.  Slot 0 is the hour and, as the tests of
    [IsExpecting] say, slots 1, 2 and 3 are minute, second and millisecond:
    four [Add]s on a fresh composer fill them in that order and the fifth
    is refused. *)
Theorem TimeComposer_fills_in_order (c : t) (n : Z) :
  Z.of_nat (List.length (comp_ c)) = kSize -> 0 <= index_ c ->
  (index_ c < kSize ->
     Add c n = (true, {| comp_ := <[Z.to_nat (index_ c) := n]> (comp_ c);
                         index_ := index_ c + 1;
                         hour_offset_ := hour_offset_ c |}) /\
     take (Z.to_nat (index_ c + 1)) (comp_ (Add c n).2) =
       take (Z.to_nat (index_ c)) (comp_ c) ++ [n] /\
     AddFinal c n =
       (true, {| comp_ := take (Z.to_nat (index_ c)) (comp_ c) ++ [n]
                            ++ replicate (Z.to_nat (kSize - (index_ c + 1))) 0;
                 index_ := kSize;
                 hour_offset_ := hour_offset_ c |})) /\
  (kSize <= index_ c -> Add c n = (false, c) /\ AddFinal c n = (false, c)) /\
  (index_ c = 1 -> IsExpecting c n = IsMinute n) /\
  (index_ c = 2 -> IsExpecting c n = IsSecond n) /\
  (index_ c = 3 -> IsExpecting c n = IsMillisecond n) /\
  (forall h m s ms x,
     index_ c = 0 ->
     let '(ok1, c1) := Add c h in
     let '(ok2, c2) := Add c1 m in
     let '(ok3, c3) := Add c2 s in
     let '(ok4, c4) := Add c3 ms in
     (ok1, ok2, ok3, ok4, (Add c4 x).1, comp_ c4, index_ c4) =
     (true, true, true, true, false, [h; m; s; ms], kSize)).
Proof.
  intros Hlen Hi.
  split; [|split; [|split; [|split; [|split]]]].
  - intros Hlt.
    assert (HA : Add c n =
      (true, {| comp_ := <[Z.to_nat (index_ c) := n]> (comp_ c);
                index_ := index_ c + 1;
                hour_offset_ := hour_offset_ c |})).
    { unfold Add. apply Z.ltb_lt in Hlt. now rewrite Hlt. }
    split; [exact HA|].
    assert (HT : take (Z.to_nat (index_ c + 1))
                   (<[Z.to_nat (index_ c) := n]> (comp_ c)) =
                 take (Z.to_nat (index_ c)) (comp_ c) ++ [n]).
    { replace (Z.to_nat (index_ c + 1)) with (S (Z.to_nat (index_ c))) by lia.
      apply take_insert_snoc. lia. }
    split; [rewrite HA; exact HT|].
    unfold AddFinal. rewrite HA. cbn [negb].
    rewrite AddFinal_loop_spec;
      cbn [comp_ index_ hour_offset_]; rewrite ?length_insert; try lia.
    now rewrite HT, <- app_assoc.
  - intros Hge. unfold AddFinal, Add.
    apply Z.ltb_ge in Hge. now rewrite Hge.
  - intros E. unfold IsExpecting. rewrite E. cbn [Z.eqb Pos.eqb andb orb].
    now rewrite !orb_false_r.
  - intros E. unfold IsExpecting. rewrite E. cbn [Z.eqb Pos.eqb andb orb].
    now rewrite orb_false_r.
  - intros E. unfold IsExpecting. rewrite E. reflexivity.
  - intros h m s ms x E. destruct c as [comp idx off]. cbn in *. subst idx.
    unfold kSize in Hlen.
    destruct comp as [|a [|b [|d [|e [|f comp]]]]];
      cbn [List.length] in Hlen; try lia.
    reflexivity.
Qed.

End TimeComposerSpec.

(** A fresh composer given [10] as its only number, as for ["10pm"]. *)
Lemma TimeComposer_fills_in_order_witness :
  TimeComposer.AddFinal (TimeComposer.new [7; 7; 7; 7]) 10 =
  (true, {| TimeComposer.comp_ := [10; 0; 0; 0];
            TimeComposer.index_ := 4;
            TimeComposer.hour_offset_ := kNone |}).
Proof.
  destruct (TimeComposer_fills_in_order (TimeComposer.new [7; 7; 7; 7]) 10)
    as ((_ & _ & H) & _).
  - reflexivity.
  - vm_compute. discriminate.
  - vm_compute. reflexivity.
  - exact H.
Defined.

(** ** DayComposer *)

Section DayComposerSpec.
Import DayComposer DayComposerView.

(** C8.  [Add] appends [n] to the recorded numbers and answers [true] while
    fewer than three are recorded; with three recorded it answers [false]
    and returns the composer as it was, and so does every later [Add]. *)
Theorem DayComposer_Add_spec (c : t) (n : Z) :
  Z.of_nat (List.length (comp_ c)) = kSize -> 0 <= index_ c ->
  (index_ c < kSize ->
     Add c n = (true, {| comp_ := <[Z.to_nat (index_ c) := n]> (comp_ c);
                         index_ := index_ c + 1;
                         named_month_ := named_month_ c;
                         is_iso_date_ := is_iso_date_ c |}) /\
     recorded (Add c n).2 = recorded c ++ [n]) /\
  (kSize <= index_ c ->
     Add c n = (false, c) /\
     forall ns, add_all c ns = (replicate (List.length ns) false, c)).
Proof.
  intros Hlen Hi. split.
  - intros Hlt.
    assert (HA : Add c n =
      (true, {| comp_ := <[Z.to_nat (index_ c) := n]> (comp_ c);
                index_ := index_ c + 1;
                named_month_ := named_month_ c;
                is_iso_date_ := is_iso_date_ c |})).
    { unfold Add. apply Z.ltb_lt in Hlt. now rewrite Hlt. }
    split; [exact HA|]. rewrite HA. unfold recorded. cbn [snd comp_ index_].
    replace (Z.to_nat (index_ c + 1)) with (S (Z.to_nat (index_ c))) by lia.
    apply take_insert_snoc. lia.
  - intros Hge.
    assert (HA : forall x, Add c x = (false, c)).
    { intros x. unfold Add. apply Z.ltb_ge in Hge. now rewrite Hge. }
    split; [apply HA|].
    induction ns as [|x ns IH]; [reflexivity|].
    cbn [add_all List.length replicate]. now rewrite HA, IH.
Qed.

End DayComposerSpec.

(** The fourth number given to a composer that holds [25], [12], [2013]. *)
Lemma DayComposer_Add_spec_witness :
  DayComposer.Add
    {| DayComposer.comp_ := [25; 12; 2013]; DayComposer.index_ := 3;
       DayComposer.named_month_ := kNone; DayComposer.is_iso_date_ := false |}
    7 =
  (false,
   {| DayComposer.comp_ := [25; 12; 2013]; DayComposer.index_ := 3;
      DayComposer.named_month_ := kNone; DayComposer.is_iso_date_ := false |}).
Proof.
  destruct (DayComposer_Add_spec
              {| DayComposer.comp_ := [25; 12; 2013]; DayComposer.index_ := 3;
                 DayComposer.named_month_ := kNone;
                 DayComposer.is_iso_date_ := false |} 7) as (_ & H).
  - reflexivity.
  - vm_compute. discriminate.
  - apply H. vm_compute. discriminate.
Defined.

(** * Further properties *)

(** ** The reader *)

Section ReaderMore.
Import InputReader ReaderView ReaderEffects.

Lemma pending_new cache s :
  pending (new cache s) = match s with [] => [0] | _ => s end.
Proof.
  unfold new. rewrite pending_Next by (cbn; lia). cbn [index_ buffer_].
  change (Z.to_nat 0) with O. rewrite drop_0. now destruct s.
Qed.

(** X1. A reader delivers its buffer in order, then the end sentinel for
    ever: after construction and [k] calls of [Next] the look-ahead is the
    character of index [k], or 0 if there is none, and [position] is
    [k + 1]; the buffer is the one given. *)
Theorem reader_delivers_buffer (cache : UnicodeCache) (s : list Z) (k : nat) :
  ch_ (advance k (new cache s)) = default 0 (s !! k) /\
  position (advance k (new cache s)) = Z.of_nat k + 1 /\
  buffer_ (advance k (new cache s)) = s /\
  (IsEnd (advance k (new cache s)) = true <->
   (List.length s <= k)%nat \/ s !! k = Some 0).
Proof.
  assert (Hc : ch_ (advance k (new cache s)) = default 0 (s !! k)).
  { rewrite advance_ch by (cbn; lia). rewrite pending_new.
    destruct s as [|a l]; [|reflexivity]. now destruct k. }
  split; [exact Hc|]. split; [|split].
  - unfold position. rewrite advance_index. cbn. lia.
  - now rewrite advance_buffer.
  - unfold IsEnd. rewrite Hc, Z.eqb_eq.
    destruct (s !! k) as [c|] eqn:E; simpl.
    + apply lookup_lt_Some in E. split.
      * intros ->. now right.
      * intros [H | [= ->]]; [lia | reflexivity].
    + apply lookup_ge_None_1 in E. split; [now left | reflexivity].
Qed.

(** X2. [ReadUnsignedNumeral] never overflows and never returns a negative
    number: whatever the length of the numeral the value lies between 0 and
    999999999; off a digit it returns 0 and leaves the reader as it is. *)
Theorem ReadUnsignedNumeral_bounded (r : t) :
  0 <= index_ r ->
  0 <= (ReadUnsignedNumeral r).1 <= 999999999 /\
  (IsAsciiDigit r = false -> ReadUnsignedNumeral r = (0, r)).
Proof.
  intros Hi. split.
  - unfold ReadUnsignedNumeral. rewrite ReadUnsignedNumeral_loop_spec by lia.
    cbn [fst]. rewrite Z.sub_0_r.
    set (ds := take _ _).
    destruct (fold_accumulate_digits ds 0 0) as [_ B]; try lia.
    + subst ds. apply Forall_take, take_while_Forall.
    + subst ds. rewrite length_take. unfold kMaxSignificantDigits. lia.
    + assert (H9 : 10 ^ (0 + Z.of_nat (List.length ds)) <= 10 ^ 9).
      { apply Z.pow_le_mono_r; [lia|]. subst ds. rewrite length_take.
        unfold kMaxSignificantDigits. lia. }
      change (10 ^ 9) with 1000000000 in H9. lia.
  - intros Hd. unfold ReadUnsignedNumeral.
    now rewrite ReadUnsignedNumeral_loop_eq, Hd.
Qed.

Lemma ReadUnsignedNumeral_bounded_witness :
  0 <= (ReadUnsignedNumeral (new Sample.cache Sample.numeral15)).1 <= 999999999.
Proof.
  apply (ReadUnsignedNumeral_bounded (new Sample.cache Sample.numeral15)).
  vm_compute. discriminate.
Defined.

(** X3. Where no word starts, [ReadWord] returns the length 0, fills the
    first [prefix_size] cells of the buffer with zeroes and leaves the
    reader as it is. *)
Theorem ReadWord_no_word (lower : Z -> Z) (r : t) (prefix : list Z)
    (prefix_size : Z) :
  IsAsciiAlphaOrAbove r = false ->
  0 <= prefix_size <= Z.of_nat (List.length prefix) ->
  ReadWord lower r prefix prefix_size =
  (0, replicate (Z.to_nat prefix_size) 0 ++ drop (Z.to_nat prefix_size) prefix,
   r).
Proof.
  intros Ha Hp. unfold ReadWord. rewrite ReadWord_scan_eq, Ha.
  rewrite (ReadWord_pad_spec prefix prefix_size 0 [] prefix);
    cbn [List.length app]; try lia; try done.
  now rewrite Z.sub_0_r.
Qed.

Lemma ReadWord_no_word_witness :
  ReadWord Sample.lower (new Sample.cache Sample.digit7) [7; 7; 7; 7] 3 =
  (0, [0; 0; 0; 7], new Sample.cache Sample.digit7).
Proof.
  apply (ReadWord_no_word Sample.lower (new Sample.cache Sample.digit7)
           [7; 7; 7; 7] 3).
  - reflexivity.
  - split; vm_compute; discriminate.
Defined.

Lemma ReadUnsignedNumeral_loop_advances r n i :
  exists k : nat, (ReadUnsignedNumeral_loop r n i).2 = advance k r.
Proof.
  funelim (ReadUnsignedNumeral_loop r n i).
  - match goal with IH : exists _, _ |- _ => destruct IH as [k Hk] end.
    exists (S k). exact Hk.
  - now exists O.
Qed.

Lemma ReadWord_scan_advances lower r prefix prefix_size len :
  exists k : nat,
    (ReadWord_scan lower r prefix prefix_size len).2 = advance k r.
Proof.
  funelim (ReadWord_scan lower r prefix prefix_size len).
  - match goal with IH : exists _, _ |- _ => destruct IH as [k Hk] end.
    exists (S k). exact Hk.
  - now exists O.
Qed.

Lemma SkipParentheses_loop_advances r balance :
  exists k : nat, SkipParentheses_loop r balance = advance (S k) r.
Proof.
  funelim (SkipParentheses_loop r balance).
  - match goal with IH : exists _, _ |- _ => destruct IH as [k Hk] end.
    exists (S k). exact Hk.
  - now exists O.
Qed.

Lemma advance_cache k r : unicode_cache_ (advance k r) = unicode_cache_ r.
Proof.
  revert r. induction k as [|k IH]; intros r; cbn [advance]; [done|].
  now rewrite IH.
Qed.

Lemma advance_keeps k r : keeps_input r (advance k r).
Proof.
  unfold keeps_input.
  rewrite advance_buffer, advance_cache, advance_index. repeat split. lia.
Qed.

(** X4. No reading operation touches the buffer or the Unicode cache, and
    none moves the cursor backwards. *)
Theorem reading_keeps_input (lower : Z -> Z) (r : t) (prefix : list Z)
    (prefix_size c : Z) :
  keeps_input r (ReadUnsignedNumeral r).2 /\
  keeps_input r (ReadWord lower r prefix prefix_size).2 /\
  keeps_input r (Skip r c).2 /\
  keeps_input r (SkipWhiteSpace r).2 /\
  keeps_input r (SkipParentheses r).2.
Proof.
  split; [|split; [|split; [|split]]].
  - unfold ReadUnsignedNumeral.
    destruct (ReadUnsignedNumeral_loop_advances r 0 0) as [k ->].
    apply advance_keeps.
  - unfold ReadWord.
    destruct (ReadWord_scan_advances lower r prefix prefix_size 0) as [k Hk].
    destruct (ReadWord_scan lower r prefix prefix_size 0) as [[len p] r'].
    cbn [snd] in *. subst r'. apply advance_keeps.
  - unfold Skip. destruct (ch_ r =? c); cbn [snd];
      [apply (advance_keeps 1) | apply (advance_keeps 0)].
  - unfold SkipWhiteSpace. destruct (IsWhiteSpace _ _); cbn [snd];
      [apply (advance_keeps 1) | apply (advance_keeps 0)].
  - unfold SkipParentheses. destruct (negb _); cbn [snd];
      [apply (advance_keeps 0)|].
    destruct (SkipParentheses_loop_advances r 0) as [k ->].
    apply advance_keeps.
Qed.

(** X5. The skip methods return whether they skipped something: on [true]
    the cursor has moved forward (by one for [Skip] and [SkipWhiteSpace]),
    on [false] the reader is the one they were given. *)
Theorem skip_reports_move (r : t) (c : Z) :
  (Skip r c).2 = (if (Skip r c).1 then Next r else r) /\
  (SkipWhiteSpace r).2 = (if (SkipWhiteSpace r).1 then Next r else r) /\
  (if (SkipParentheses r).1
   then index_ r < index_ (SkipParentheses r).2
   else (SkipParentheses r).2 = r).
Proof.
  split; [|split].
  - unfold Skip. now destruct (ch_ r =? c).
  - unfold SkipWhiteSpace. now destruct (IsWhiteSpace _ _).
  - unfold SkipParentheses. destruct (negb _); cbn [fst snd]; [done|].
    destruct (SkipParentheses_loop_advances r 0) as [k ->].
    rewrite advance_index. lia.
Qed.

Lemma SkipParentheses_loop_open body : forall r c balance,
  0 <= index_ r -> pending r = c :: body -> 0 < rebalance c balance ->
  Forall (fun x => x <> 41 /\ x <> 0) body ->
  SkipParentheses_loop r balance = advance (S (List.length body)) r.
Proof.
  induction body as [|x body IH]; intros r c balance Hi E Hb Hbody.
  - assert (Hn : ch_ (Next r) = 0).
    { pose proof (pending_Next r Hi) as HN. unfold pending in E, HN.
      injection E as _ E. rewrite E in HN. now injection HN. }
    rewrite SkipParentheses_loop_eq, Hn. now rewrite andb_false_r.
  - assert (Hch : ch_ r = c) by (unfold pending in E; now injection E).
    pose proof (pending_Next_cons r c x body Hi E) as E'.
    assert (Hn : ch_ (Next r) = x) by (unfold pending in E'; now injection E').
    apply Forall_cons in Hbody as [[Hx1 Hx0] Hbody'].
    rewrite SkipParentheses_loop_eq, Hn, Hch.
    apply Z.ltb_lt in Hb as Hb'. rewrite Hb'.
    apply Z.eqb_neq in Hx0 as Hx0'. rewrite Hx0'. cbn [andb negb].
    cbn [List.length advance].
    apply (IH (Next r) (ch_ (Next r)));
      [rewrite Next_index; lia | now rewrite Hn | | done].
    rewrite Hn. unfold rebalance at 1.
    apply Z.eqb_neq in Hx1. rewrite Hx1. destruct (_ =? 40); lia.
Qed.

(** X6. A comment that is opened and never closed swallows the rest of the
    input: after ['('] and text without [')'] up to the end of the buffer,
    [SkipParentheses] answers [true] and leaves the reader at the end. *)
Theorem SkipParentheses_unterminated (r : t) (body : list Z) :
  0 <= index_ r -> pending r = 40 :: body ->
  Forall (fun x => x <> 41 /\ x <> 0) body ->
  SkipParentheses r = (true, advance (S (List.length body)) r) /\
  IsEnd (SkipParentheses r).2 = true /\
  length r < index_ (SkipParentheses r).2.
Proof.
  intros Hi E Hbody.
  assert (Hch : ch_ r = 40) by (unfold pending in E; now injection E).
  assert (HS : SkipParentheses r = (true, advance (S (List.length body)) r)).
  { unfold SkipParentheses. rewrite Hch. cbn [Z.eqb Pos.eqb negb].
    f_equal. apply (SkipParentheses_loop_open body r 40 0); try done. }
  split; [exact HS|]. rewrite HS. cbn [snd]. split.
  - unfold IsEnd. rewrite advance_ch by done. rewrite E.
    rewrite lookup_ge_None_2; [reflexivity | cbn [List.length]; lia].
  - rewrite advance_index. unfold length.
    assert (Hl : List.length (drop (Z.to_nat (index_ r)) (buffer_ r))
                 = List.length body).
    { unfold pending in E. now injection E as _ ->. }
    rewrite length_drop in Hl. lia.
Qed.

Lemma SkipParentheses_unterminated_witness :
  IsEnd (SkipParentheses (new Sample.cache MoreSamples.unterminated)).2 = true.
Proof.
  destruct (SkipParentheses_unterminated
              (new Sample.cache MoreSamples.unterminated) [97; 40; 98])
    as (_ & H & _).
  - vm_compute. discriminate.
  - reflexivity.
  - repeat constructor; lia.
  - exact H.
Defined.

(** X7. The character tests on which scanning branches exclude one another:
    of end of input, digit, letter-or-above, sign and the two parentheses,
    the look-ahead passes at most one. *)
Theorem character_classes_exclusive (r : t) :
  Z.b2z (IsEnd r) + Z.b2z (IsAsciiDigit r) + Z.b2z (IsAsciiAlphaOrAbove r)
  + Z.b2z (IsAsciiSign r) + Z.b2z (Is r 40) + Z.b2z (Is r 41) <= 1.
Proof.
  unfold IsEnd, IsAsciiDigit, IsDecimalDigit, IsAsciiAlphaOrAbove,
    IsAsciiSign, Is.
  destruct (Z.eqb_spec (ch_ r) 0), (Z.leb_spec 48 (ch_ r)),
    (Z.leb_spec (ch_ r) 57), (Z.leb_spec 65 (ch_ r)),
    (Z.eqb_spec (ch_ r) 43), (Z.eqb_spec (ch_ r) 45),
    (Z.eqb_spec (ch_ r) 40), (Z.eqb_spec (ch_ r) 41); cbn; lia.
Qed.

End ReaderMore.

(** ** Signs *)

(** X8. On a sign, [GetAsciiSignValue] is 1 for ['+'] and -1 for ['-'], and
    [SetSign] stores that value as it is; [SetSign] stores 1 or -1 whatever
    it is given. *)
Theorem sign_value_spec (r : InputReader.t) (c : TimeZoneComposer.t) (n : Z) :
  InputReader.IsAsciiSign r = true ->
  InputReader.GetAsciiSignValue r
    = (if InputReader.ch_ r =? 43 then 1 else -1) /\
  TimeZoneComposer.sign_
    (TimeZoneComposer.SetSign c (InputReader.GetAsciiSignValue r))
    = InputReader.GetAsciiSignValue r /\
  (TimeZoneComposer.sign_ (TimeZoneComposer.SetSign c n) = 1 \/
   TimeZoneComposer.sign_ (TimeZoneComposer.SetSign c n) = -1).
Proof.
  unfold InputReader.IsAsciiSign, InputReader.GetAsciiSignValue,
    TimeZoneComposer.SetSign. cbn [TimeZoneComposer.sign_].
  intros Hs. apply orb_prop in Hs.
  split; [|split].
  - destruct Hs as [H | H]; apply Z.eqb_eq in H; now rewrite H.
  - destruct Hs as [H | H]; apply Z.eqb_eq in H; now rewrite H.
  - destruct (n <? 0); auto.
Qed.

Lemma sign_value_spec_witness :
  InputReader.GetAsciiSignValue (InputReader.new Sample.cache [45; 56]) = -1.
Proof.
  destruct (sign_value_spec (InputReader.new Sample.cache [45; 56])
              TimeZoneComposer.new 0) as (H & _).
  - reflexivity.
  - exact H.
Defined.

(** ** Tokens *)

Section Tokens.
Import DateToken TokenView.

Lemma to_char_mod c c' : to_char c = to_char c' <-> c mod 256 = c' mod 256.
Proof.
  unfold to_char. split; intros H.
  - assert (E : (c + 128) mod 256 = (c' + 128) mod 256) by lia.
    rewrite <- (Z.add_simpl_r c 128), <- (Z.add_simpl_r c' 128).
    rewrite (Zminus_mod (c + 128)), (Zminus_mod (c' + 128)), E. reflexivity.
  - rewrite (Zplus_mod c), (Zplus_mod c'), H. reflexivity.
Qed.

Lemma to_char_idem c : to_char (to_char c) = to_char c.
Proof.
  unfold to_char.
  replace ((c + 128) mod 256 - 128 + 128) with ((c + 128) mod 256) by lia.
  now rewrite Zmod_mod.
Qed.

(** X9. The seven class tests partition the tokens: a token whose tag is a
    declared one (not below [kInvalidTokenTag]) passes exactly one of them,
    any other token none; each factory builds a token of its own class, and
    a [Keyword] token is a keyword whatever its type, [INVALID] included. *)
Theorem token_classes_partition (k : t) (kt : KeywordType.t) (v len c : Z) :
  class_count k = (if kInvalidTokenTag <=? tag_ k then 1 else 0) /\
  IsKeyword (Keyword kt v len) = true /\
  IsNumber (Number v len) = true /\
  IsSymbol (Symbol c) = true /\
  IsEndOfInput EndOfInput = true /\
  IsWhiteSpace (WhiteSpace len) = true /\
  IsUnknown Unknown = true /\
  IsInvalid Invalid = true.
Proof.
  split.
  - unfold class_count, IsInvalid, IsUnknown, IsNumber, IsSymbol,
      IsWhiteSpace, IsEndOfInput, IsKeyword, kInvalidTokenTag,
      kUnknownTokenTag, kNumberTag, kSymbolTag, kWhiteSpaceTag,
      kEndOfInputTag, kKeywordTagStart.
    destruct (Z.eqb_spec (tag_ k) (-6)), (Z.eqb_spec (tag_ k) (-5)),
      (Z.eqb_spec (tag_ k) (-3)), (Z.eqb_spec (tag_ k) (-2)),
      (Z.eqb_spec (tag_ k) (-4)), (Z.eqb_spec (tag_ k) (-1)),
      (Z.leb_spec 0 (tag_ k)), (Z.leb_spec (-6) (tag_ k)); cbn; lia.
  - repeat split. now destruct kt.
Qed.

(** X10. What a factory puts into a token its accessors give back: the
    value and digit count of a number, the type, value and length of a
    keyword, the character of a symbol (as a [char]); an accessor applied
    to a token of another class fails its assertion. *)
Theorem token_round_trip (kt : KeywordType.t) (v len c : Z) :
  number (Number v len) = Some v /\
  length (Number v len) = len /\
  keyword_type (Keyword kt v len) = Some kt /\
  keyword_value (Keyword kt v len) = Some v /\
  length (Keyword kt v len) = len /\
  symbol (Symbol c) = Some (to_char c) /\
  length (WhiteSpace len) = len /\
  number (Symbol c) = None /\ number (Keyword kt v len) = None /\
  symbol (Number v len) = None /\ symbol (Keyword kt v len) = None /\
  keyword_type (Number v len) = None /\ keyword_value (Symbol c) = None /\
  ascii_sign (Number v len) = None.
Proof.
  assert (Hs : symbol (Symbol c) = Some (to_char c)).
  { unfold symbol, IsSymbol, Symbol. cbn [tag_ value_].
    rewrite Z.eqb_refl. now rewrite to_char_idem. }
  repeat match goal with |- _ /\ _ => split end;
    try exact Hs; try reflexivity; now destruct kt.
Qed.

(** X11. The tests that take an argument, on tokens built by the factories:
    [IsSymbol(c')] holds of [Symbol(c)] exactly when [c] and [c'] are the
    same [char], and of no number, keyword or white space;
    [IsFixedLengthNumber(n)] holds of [Number(v, len)] exactly when
    [len = n]; [IsAsciiSign] holds of [Symbol(c)] exactly for ['+'] and
    ['-'], with [ascii_sign] 1 and -1; [IsKeywordZ] holds of a keyword
    exactly when it is a time zone name of length 1 and value 0; and
    [IsUnknown(x)] holds of [Unknown()] for [x = -1] only, so for no
    character. *)
Theorem token_tests_with_argument (kt : KeywordType.t) (v len c c' n x : Z) :
  (IsSymbol_char (Symbol c) c' = true <-> c mod 256 = c' mod 256) /\
  IsSymbol_char (Number v len) c' = false /\
  IsSymbol_char (Keyword kt v len) c' = false /\
  IsSymbol_char (WhiteSpace len) c' = false /\
  (IsFixedLengthNumber (Number v len) n = true <-> len = n) /\
  (IsAsciiSign (Symbol c) = true <-> c mod 256 = 43 \/ c mod 256 = 45) /\
  ascii_sign (Symbol 43) = Some 1 /\ ascii_sign (Symbol 45) = Some (-1) /\
  (IsKeywordZ (Keyword kt v len) = true <->
   kt = KeywordType.TIME_ZONE_NAME /\ len = 1 /\ v = 0) /\
  (IsUnknown_char Unknown x = true <-> x = -1).
Proof.
  split.
  { unfold IsSymbol_char, symbol, IsSymbol, Symbol. cbn [tag_ value_].
    rewrite Z.eqb_refl. cbn [andb].
    rewrite to_char_idem, Z.eqb_eq. apply to_char_mod. }
  split; [reflexivity|]. split; [now destruct kt|]. split; [reflexivity|].
  split.
  { unfold IsFixedLengthNumber. cbn. apply Z.eqb_eq. }
  split.
  { unfold IsAsciiSign, Symbol. cbn [tag_ value_].
    rewrite Z.eqb_refl. cbn [andb].
    rewrite orb_true_iff, !Z.eqb_eq.
    change 45 with (to_char 45) at 1. change 43 with (to_char 43) at 1.
    rewrite !to_char_mod. change (45 mod 256) with 45.
    change (43 mod 256) with 43. tauto. }
  split; [reflexivity|]. split; [reflexivity|].
  split.
  { unfold IsKeywordZ, IsKeywordType. cbn [Keyword tag_ length_ value_].
    rewrite !andb_true_iff, !Z.eqb_eq.
    split.
    - intros [[Hk ->] ->]. destruct kt; try discriminate. auto.
    - intros (-> & -> & ->). auto. }
  unfold IsUnknown_char, IsUnknown, Unknown. cbn [tag_ value_].
  rewrite Z.eqb_refl. cbn [andb]. rewrite Z.eqb_eq. split; intros H; lia.
Qed.

End Tokens.

(** ** The tokenizer *)

Section Tokenizer.
Import DateStringTokenizer TokenView.
Variable Scan : InputReader.t -> DateToken.t * InputReader.t.

Lemma scanned_S n r :
  scanned Scan (S n) r = (Scan r).1 :: scanned Scan n (Scan r).2.
Proof. cbn [scanned]. now destruct (Scan r). Qed.

Lemma scanned_length n : forall r, List.length (scanned Scan n r) = n.
Proof.
  induction n as [|n IH]; intros r; [done|].
  rewrite scanned_S. cbn [List.length]. now rewrite IH.
Qed.

Lemma scanned_succ n : forall r,
  scanned Scan (S n) r = scanned Scan n r ++ [(Scan (scan_reader Scan n r)).1].
Proof.
  induction n as [|n IH]; intros r.
  - now rewrite scanned_S.
  - rewrite (scanned_S (S n)), IH, (scanned_S n r). reflexivity.
Qed.

Lemma delivered_spec n : forall s,
  delivered Scan n s =
  (firstn n (next_ s :: scanned Scan n (in_ s)),
   {| in_ := scan_reader Scan n (in_ s);
      next_ := nth n (next_ s :: scanned Scan n (in_ s)) DateToken.Invalid |}).
Proof.
  induction n as [|n IH]; intros s.
  - cbn. now destruct s.
  - cbn [delivered]. unfold Next at 1.
    destruct (Scan (in_ s)) as [k r] eqn:E.
    rewrite IH. cbn [in_ next_ scanned scan_reader firstn nth].
    rewrite E. cbn [snd]. reflexivity.
Qed.

(** X12. The tokenizer hands out the results of [Scan] in order, staying one
    token ahead of its caller: [n] calls of [Next] on a fresh tokenizer
    return the first [n] results of [Scan] on the reader, [Peek] then shows
    the result of index [n], and the reader has been scanned [n + 1]
    times. *)
Theorem tokenizer_delivers_scans (r : InputReader.t) (n : nat) :
  (delivered Scan n (new Scan r)).1 = scanned Scan n r /\
  Peek (delivered Scan n (new Scan r)).2
    = (Scan (scan_reader Scan n r)).1 /\
  in_ (delivered Scan n (new Scan r)).2 = scan_reader Scan (S n) r.
Proof.
  rewrite delivered_spec. unfold new, Peek.
  destruct (Scan r) as [k r'] eqn:E. cbn [fst snd in_ next_ scan_reader].
  rewrite E. cbn [snd].
  assert (H : k :: scanned Scan n r' = scanned Scan (S n) r)
    by (rewrite scanned_S, E; reflexivity).
  rewrite H, scanned_succ. split; [|split; [|reflexivity]].
  - pose proof (scanned_length n r) as Hl.
    rewrite firstn_app, Hl, Nat.sub_diag, firstn_O, app_nil_r.
    rewrite <- Hl at 1. apply firstn_all.
  - pose proof (scanned_length n r) as Hl.
    rewrite app_nth2 by lia. rewrite Hl, Nat.sub_diag. reflexivity.
Qed.

(** X13. [Next] returns the token [Peek] shows; [SkipSymbol(c)] answers
    whether that token is the symbol [c]: if so it moves on as [Next] does,
    if not the tokenizer, and so the next [Peek], is as before. *)
Theorem tokenizer_skip_symbol (s : t) (c : Z) :
  (Next Scan s).1 = Peek s /\
  (SkipSymbol Scan s c).1 = DateToken.IsSymbol_char (Peek s) c /\
  (SkipSymbol Scan s c).2
    = (if DateToken.IsSymbol_char (Peek s) c then (Next Scan s).2 else s).
Proof.
  unfold Next, SkipSymbol, Peek.
  destruct (Scan (in_ s)) as [k r].
  now destruct (DateToken.IsSymbol_char (next_ s) c).
Qed.

End Tokenizer.

(** ** TimeZoneComposer *)

Section TimeZoneComposerMore.
Import TimeZoneComposer.

(** X14. [Set] splits an offset in hours into sign and magnitude: the sign is
    1 or -1, the hour is the absolute value, their product is the offset
    given, the minute is 0; the zone is UTC exactly for the offset 0, and no
    minute is expected after [Set]. *)
Theorem TimeZoneComposer_Set_spec (c : t) (h n : Z) :
  Int.is_int h -> h <> Int.kMinInt ->
  (sign_ (Set_ c h) = 1 \/ sign_ (Set_ c h) = -1) /\
  hour_ (Set_ c h) = Z.abs h /\
  sign_ (Set_ c h) * hour_ (Set_ c h) = h /\
  minute_ (Set_ c h) = 0 /\
  (IsUTC (Set_ c h) = true <-> h = 0) /\
  IsExpecting (Set_ c h) n = false /\
  (Z.abs h <> kNone -> IsEmpty (Set_ c h) = false).
Proof.
  unfold Int.is_int, Int.kMinInt, Int.kMaxInt. intros Hh Hmin.
  assert (Hhour : hour_ (Set_ c h) = Z.abs h).
  { unfold Set_. cbn [hour_]. unfold Int.mul.
    destruct (Z.ltb_spec h 0);
      (rewrite wrap_int_id;
       [lia | unfold Int.is_int, Int.kMinInt, Int.kMaxInt; lia]). }
  assert (Hsign : sign_ (Set_ c h) = if h <? 0 then -1 else 1) by reflexivity.
  split; [rewrite Hsign; destruct (h <? 0); auto|].
  split; [exact Hhour|].
  split; [rewrite Hhour, Hsign; destruct (Z.ltb_spec h 0); lia|].
  split; [reflexivity|].
  split; [|split].
  - unfold IsUTC. rewrite Hhour. cbn [Set_ minute_].
    rewrite andb_true_r, Z.eqb_eq. lia.
  - unfold IsExpecting. cbn [Set_ minute_].
    change (0 =? kNone) with false. now rewrite andb_false_r.
  - intros Hne. unfold IsEmpty. rewrite Hhour. now apply Z.eqb_neq.
Qed.

Lemma TimeZoneComposer_Set_spec_witness :
  sign_ (Set_ new (-8)) * hour_ (Set_ new (-8)) = -8.
Proof.
  destruct (TimeZoneComposer_Set_spec new (-8) 0) as (_ & _ & H & _).
  - unfold Int.is_int, Int.kMinInt, Int.kMaxInt. lia.
  - vm_compute. discriminate.
  - exact H.
Defined.

(** X15. A composer expects a minute exactly between the hour and the minute:
    empty, it expects nothing; once an hour is set and no minute yet, it is
    no longer empty and expects the numbers 0 to 59 and no others; once the
    minute is set too, it expects nothing; and it is UTC exactly when hour
    and minute are both 0. *)
Theorem TimeZoneComposer_expects_minute (c : t) (h m n : Z) :
  minute_ c = kNone -> h <> kNone -> m <> kNone -> Int.is_int n ->
  IsEmpty new = true /\ IsExpecting new n = false /\
  IsEmpty (SetAbsoluteHour c h) = false /\
  (IsExpecting (SetAbsoluteHour c h) n = true <-> 0 <= n <= 59) /\
  IsExpecting (SetAbsoluteMinute (SetAbsoluteHour c h) m) n = false /\
  (IsUTC (SetAbsoluteMinute (SetAbsoluteHour c h) m) = true <->
   h = 0 /\ m = 0).
Proof.
  intros Hc Hh Hm Hn.
  apply Z.eqb_neq in Hh as Hh'. apply Z.eqb_neq in Hm as Hm'.
  split; [reflexivity|]. split; [reflexivity|].
  split; [exact Hh'|]. split; [|split].
  - unfold IsExpecting. cbn [SetAbsoluteHour hour_ minute_].
    rewrite Hh', Hc, Z.eqb_refl. cbn [negb andb].
    unfold TimeComposer.IsMinute. apply Between_spec; auto using is_int_small with lia.
  - unfold IsExpecting. cbn [SetAbsoluteMinute SetAbsoluteHour hour_ minute_].
    rewrite Hm'. now rewrite andb_false_r.
  - unfold IsUTC. cbn [SetAbsoluteMinute SetAbsoluteHour hour_ minute_].
    now rewrite andb_true_iff, !Z.eqb_eq.
Qed.

Lemma TimeZoneComposer_expects_minute_witness :
  IsExpecting (SetAbsoluteHour new 5) 30 = true <-> 0 <= 30 <= 59.
Proof.
  destruct (TimeZoneComposer_expects_minute new 5 30 30) as (_ & _ & _ & H & _).
  - reflexivity.
  - vm_compute. discriminate.
  - vm_compute. discriminate.
  - unfold Int.is_int, Int.kMinInt, Int.kMaxInt. lia.
  - exact H.
Defined.

End TimeZoneComposerMore.

(** ** TimeComposer *)

Section TimeComposerMore.
Import TimeComposer TimeComposerView.

Lemma AddFinal_loop_well_formed c :
  well_formed c -> well_formed (AddFinal_loop c) /\ index_ (AddFinal_loop c) = kSize.
Proof.
  intros [Hl Hi]. rewrite AddFinal_loop_spec by done.
  unfold well_formed. cbn [comp_ index_].
  rewrite length_app, length_take, length_replicate. unfold kSize in *. lia.
Qed.

(** X16. A composer keeps its shape: starting from a fresh one, with its
    array of four cells, [Add], [AddFinal] and [SetHourOffset] leave the
    array four cells long and [index_] between 0 and 4. *)
Theorem TimeComposer_keeps_shape (c : t) (n : Z) :
  well_formed c ->
  well_formed (Add c n).2 /\ well_formed (AddFinal c n).2 /\
  well_formed (SetHourOffset c n) /\
  (forall junk, List.length junk = 4%nat -> well_formed (new junk)).
Proof.
  intros Hc. pose proof Hc as [Hl Hi].
  assert (HA : well_formed (Add c n).2).
  { unfold Add. destruct (Z.ltb_spec (index_ c) kSize); cbn [snd]; [|done].
    unfold well_formed. cbn [comp_ index_]. rewrite length_insert. lia. }
  split; [exact HA|]. split; [|split].
  - unfold AddFinal. destruct (Add c n) as [[] c']; cbn [negb snd] in *;
      [now apply AddFinal_loop_well_formed | done].
  - exact Hc.
  - intros junk Hj. unfold well_formed, new, kSize. cbn [comp_ index_]. lia.
Qed.

Lemma TimeComposer_keeps_shape_witness :
  well_formed (AddFinal (new [7; 7; 7; 7]) 10).2.
Proof.
  destruct (TimeComposer_keeps_shape (new [7; 7; 7; 7]) 10) as (_ & H & _).
  - split; [reflexivity | split; vm_compute; discriminate].
  - exact H.
Defined.

(** X17. A number that [IsExpecting] announces is never refused: where
    [IsExpecting(n)] holds, one to three slots are filled, [Add(n)] and
    [AddFinal(n)] both succeed, and [n] lies in 0..999. *)
Theorem TimeComposer_expected_is_accepted (c : t) (n : Z) :
  Int.is_int n -> IsExpecting c n = true ->
  1 <= index_ c <= 3 /\ IsEmpty c = false /\
  (Add c n).1 = true /\ (AddFinal c n).1 = true /\ 0 <= n <= 999.
Proof.
  unfold IsExpecting. intros Hn H.
  assert (Hi : (index_ c = 1 /\ 0 <= n <= 59) \/ (index_ c = 2 /\ 0 <= n <= 59)
               \/ (index_ c = 3 /\ 0 <= n <= 999)).
  { rewrite !orb_true_iff, !andb_true_iff, !Z.eqb_eq in H.
    unfold IsMinute, IsSecond, IsMillisecond in H.
    rewrite !Between_spec in H by (auto using is_int_small with lia). tauto. }
  assert (Hlt : (index_ c <? kSize) = true)
    by (apply Z.ltb_lt; unfold kSize; lia).
  split; [lia|]. split; [unfold IsEmpty; apply Z.eqb_neq; lia|].
  split; [unfold Add; now rewrite Hlt|].
  split; [unfold AddFinal, Add; now rewrite Hlt|]. lia.
Qed.

Lemma TimeComposer_expected_is_accepted_witness :
  (Add (Add (new [7; 7; 7; 7]) 10).2 30).1 = true.
Proof.
  destruct (TimeComposer_expected_is_accepted (Add (new [7; 7; 7; 7]) 10).2 30)
    as (_ & _ & H & _).
  - unfold Int.is_int, Int.kMinInt, Int.kMaxInt. lia.
  - reflexivity.
  - exact H.
Defined.

(** X18. [AddFinal] closes the time: after a successful [AddFinal] all four
    slots are filled, every further [Add] and [AddFinal] is refused and
    leaves the composer alone, and no number is expected; on a fresh
    composer the slots are the number given and three zeroes. *)
Theorem TimeComposer_AddFinal_closes (c : t) (n m : Z) :
  well_formed c -> (AddFinal c n).1 = true ->
  index_ (AddFinal c n).2 = kSize /\
  Add (AddFinal c n).2 m = (false, (AddFinal c n).2) /\
  AddFinal (AddFinal c n).2 m = (false, (AddFinal c n).2) /\
  IsExpecting (AddFinal c n).2 m = false /\
  IsEmpty (AddFinal c n).2 = false /\
  (index_ c = 0 -> comp_ (AddFinal c n).2 = [n; 0; 0; 0]).
Proof.
  intros Hc Hok.
  assert (Hlt : index_ c < kSize).
  { unfold AddFinal, Add in Hok.
    destruct (Z.ltb_spec (index_ c) kSize); [done | discriminate]. }
  pose proof Hc as [Hl Hi].
  assert (HF : AddFinal c n =
    (true, {| comp_ := take (Z.to_nat (index_ c)) (comp_ c) ++ [n]
                         ++ replicate (Z.to_nat (kSize - (index_ c + 1))) 0;
              index_ := kSize;
              hour_offset_ := hour_offset_ c |})).
  { unfold AddFinal, Add. apply Z.ltb_lt in Hlt as Hlt'. rewrite Hlt'.
    cbn [negb]. rewrite AddFinal_loop_spec;
      cbn [comp_ index_ hour_offset_]; rewrite ?length_insert; try lia.
    replace (Z.to_nat (index_ c + 1)) with (S (Z.to_nat (index_ c))) by lia.
    rewrite take_insert_snoc by lia. now rewrite <- app_assoc. }
  rewrite HF. cbn [snd index_ comp_].
  split; [reflexivity|]. split; [reflexivity|]. split; [reflexivity|].
  split; [reflexivity|]. split; [reflexivity|].
  intros H0. rewrite H0. reflexivity.
Qed.

Lemma TimeComposer_AddFinal_closes_witness :
  Add (AddFinal (new [7; 7; 7; 7]) 10).2 30
  = (false, (AddFinal (new [7; 7; 7; 7]) 10).2).
Proof.
  destruct (TimeComposer_AddFinal_closes (new [7; 7; 7; 7]) 10 30)
    as (_ & H & _).
  - split; [reflexivity | split; vm_compute; discriminate].
  - reflexivity.
  - exact H.
Defined.

Lemma AddFinal_loop_SetHourOffset c n :
  AddFinal_loop (SetHourOffset c n) = SetHourOffset (AddFinal_loop c) n.
Proof.
  funelim (AddFinal_loop c);
    rewrite (AddFinal_loop_eq (SetHourOffset c n));
    cbn [SetHourOffset index_ comp_ hour_offset_];
    match goal with E : (index_ c <? kSize) = _ |- _ => rewrite E end;
    [|reflexivity].
  match goal with IH : forall _, _ = _ |- _ => rewrite <- IH end.
  reflexivity.
Qed.

(** X19. The am/pm offset and the numbers are independent: [SetHourOffset]
    leaves slots and count alone, and setting the offset before or after
    [Add] or [AddFinal] gives the same composer and the same answer. *)
Theorem TimeComposer_SetHourOffset_commutes (c : t) (n x : Z) :
  comp_ (SetHourOffset c x) = comp_ c /\
  index_ (SetHourOffset c x) = index_ c /\
  hour_offset_ (SetHourOffset c x) = x /\
  Add (SetHourOffset c x) n = prod_map id (fun c => SetHourOffset c x) (Add c n) /\
  AddFinal (SetHourOffset c x) n
    = prod_map id (fun c => SetHourOffset c x) (AddFinal c n).
Proof.
  split; [reflexivity|]. split; [reflexivity|]. split; [reflexivity|].
  assert (HA : Add (SetHourOffset c x) n
               = prod_map id (fun c => SetHourOffset c x) (Add c n)).
  { unfold Add. cbn [SetHourOffset index_ comp_ hour_offset_].
    now destruct (index_ c <? kSize). }
  split; [exact HA|].
  unfold AddFinal. rewrite HA. destruct (Add c n) as [[] c']; cbn; [|done].
  f_equal. apply AddFinal_loop_SetHourOffset.
Qed.

End TimeComposerMore.

(** ** DayComposer *)

Section DayComposerMore.
Import DayComposer DayComposerView.

Lemma add_all_spec ns : forall c,
  Z.of_nat (List.length (comp_ c)) = kSize -> 0 <= index_ c <= kSize ->
  let k := Nat.min (Z.to_nat (kSize - index_ c)) (List.length ns) in
  (add_all c ns).1 = replicate k true ++ replicate (List.length ns - k) false /\
  recorded (add_all c ns).2 = recorded c ++ take k ns /\
  index_ (add_all c ns).2 = index_ c + Z.of_nat k /\
  named_month_ (add_all c ns).2 = named_month_ c /\
  is_iso_date_ (add_all c ns).2 = is_iso_date_ c.
Proof.
  induction ns as [|n ns IH]; intros c Hl Hi k.
  - subst k. rewrite Nat.min_0_r. cbn. rewrite app_nil_r. repeat split. lia.
  - destruct (Z.ltb_spec (index_ c) kSize) as [Hlt | Hge].
    + set (c1 := {| comp_ := <[Z.to_nat (index_ c):=n]> (comp_ c);
                    index_ := index_ c + 1;
                    named_month_ := named_month_ c;
                    is_iso_date_ := is_iso_date_ c |}).
      assert (HA : Add c n = (true, c1)).
      { unfold Add. apply Z.ltb_lt in Hlt. now rewrite Hlt. }
      cbn [add_all]. rewrite HA.
      destruct (IH c1) as (H1 & H2 & H3 & H4 & H5);
        [cbn [c1 comp_]; rewrite length_insert; lia | cbn [c1 index_]; lia|].
      destruct (add_all c1 ns) as [oks c2]. cbn [fst snd] in *.
      assert (Hk : k = S (Nat.min (Z.to_nat (kSize - index_ c1))
                            (List.length ns))).
      { subst k. cbn [c1 index_ List.length]. lia. }
      rewrite Hk. cbn [replicate app take List.length Nat.sub].
      rewrite H1, H2, H3, H4, H5.
      split; [reflexivity|]. split; [|split; [cbn [c1 index_]; lia | done]].
      unfold recorded at 1. cbn [c1 index_ comp_].
      replace (Z.to_nat (index_ c + 1)) with (S (Z.to_nat (index_ c))) by lia.
      rewrite take_insert_snoc by lia. unfold recorded.
      now rewrite <- app_assoc.
    + assert (HA : Add c n = (false, c)).
      { unfold Add. apply Z.ltb_ge in Hge. now rewrite Hge. }
      cbn [add_all]. rewrite HA.
      destruct (IH c) as (H1 & H2 & H3 & H4 & H5); [done | done |].
      destruct (add_all c ns) as [oks c2]. cbn [fst snd] in *.
      assert (Hk : k = O) by (subst k; lia).
      replace (Nat.min (Z.to_nat (kSize - index_ c)) (List.length ns))
        with O in * by lia.
      rewrite Hk. cbn [replicate app take List.length Nat.sub] in *.
      rewrite Nat.sub_0_r in H1. rewrite H1, H2, H3, H4, H5.
      repeat split; lia.
Qed.

(** X20. Of any series of numbers given to a fresh composer the first three
    are accepted and recorded in their order, and all the others are
    refused: the answers are [true] for the first three calls and [false]
    afterwards, the recorded numbers are the first three of the series, and
    the composer is empty only if the series is. *)
Theorem DayComposer_first_three (junk ns : list Z) :
  List.length junk = 3%nat ->
  (add_all (new junk) ns).1
    = replicate (Nat.min 3 (List.length ns)) true
      ++ replicate (List.length ns - 3) false /\
  recorded (add_all (new junk) ns).2 = take 3 ns /\
  (IsEmpty (add_all (new junk) ns).2 = true <-> ns = []).
Proof.
  intros Hj.
  destruct (add_all_spec ns (new junk)) as (H1 & H2 & H3 & _).
  { unfold new, kSize. cbn [comp_]. lia. }
  { unfold new, kSize. cbn [index_]. lia. }
  change (Z.to_nat (kSize - index_ (new junk))) with 3%nat in *.
  split; [|split].
  - rewrite H1. f_equal. f_equal. lia.
  - rewrite H2. unfold recorded, new. cbn [index_ comp_].
    change (Z.to_nat 0) with O. rewrite firstn_O. cbn [app].
    destruct (Nat.le_ge_cases 3 (List.length ns)).
    + now rewrite Nat.min_l by done.
    + rewrite Nat.min_r by done. now rewrite !take_ge by lia.
  - unfold IsEmpty. rewrite H3, Z.eqb_eq. cbn [new index_].
    destruct ns; cbn [List.length]; split; try done; lia.
Qed.

Lemma DayComposer_first_three_witness :
  recorded (add_all (new [7; 7; 7]) [25; 12; 2013; 9]).2 = [25; 12; 2013].
Proof.
  destruct (DayComposer_first_three [7; 7; 7] [25; 12; 2013; 9]) as (_ & H & _).
  - reflexivity.
  - exact H.
Defined.

(** X21. The month word, the ISO mark and the numbers are independent:
    [SetNamedMonth] and [set_iso_date] leave the recorded numbers alone, and
    applying either before or after [Add] gives the same composer and the
    same answer. *)
Theorem DayComposer_setters_commute (c : t) (n m : Z) :
  recorded (SetNamedMonth c m) = recorded c /\
  recorded (set_iso_date c) = recorded c /\
  named_month_ (SetNamedMonth c m) = m /\
  is_iso_date_ (set_iso_date c) = true /\
  Add (SetNamedMonth c m) n
    = prod_map id (fun c => SetNamedMonth c m) (Add c n) /\
  Add (set_iso_date c) n = prod_map id set_iso_date (Add c n) /\
  SetNamedMonth (set_iso_date c) m = set_iso_date (SetNamedMonth c m).
Proof.
  repeat split; unfold Add;
    cbn [SetNamedMonth set_iso_date index_ comp_ named_month_ is_iso_date_];
    now destruct (index_ c <? kSize).
Qed.

End DayComposerMore.

(** ** Reading twice *)

Section ReadingTwice.
Import InputReader ReaderView.

(** X22. Reading is exhaustive: right after [ReadUnsignedNumeral] a second
    call finds no digit, returns 0 and leaves the reader where it is; right
    after [ReadWord] a second call finds no word, returns the length 0 and
    leaves the reader where it is. *)
Theorem reading_twice_reads_nothing (lower : Z -> Z) (r : t)
    (prefix : list Z) (prefix_size : Z) :
  0 <= index_ r -> 0 <= prefix_size <= Z.of_nat (List.length prefix) ->
  ReadUnsignedNumeral (ReadUnsignedNumeral r).2
    = (0, (ReadUnsignedNumeral r).2) /\
  (ReadWord lower (ReadWord lower r prefix prefix_size).2 prefix prefix_size).1.1
    = 0 /\
  (ReadWord lower (ReadWord lower r prefix prefix_size).2 prefix prefix_size).2
    = (ReadWord lower r prefix prefix_size).2.
Proof.
  intros Hi Hp.
  assert (Hd : IsAsciiDigit (ReadUnsignedNumeral r).2 = false).
  { unfold ReadUnsignedNumeral. rewrite ReadUnsignedNumeral_loop_spec by lia.
    cbn [snd]. now apply advance_take_while_stop. }
  assert (Ha : IsAsciiAlphaOrAbove (ReadWord lower r prefix prefix_size).2
               = false).
  { rewrite ReadWord_closed_form by done. cbn [snd].
    now apply (advance_take_while_stop IsAlphaOrAbove). }
  split.
  - unfold ReadUnsignedNumeral at 1.
    now rewrite ReadUnsignedNumeral_loop_eq, Hd.
  - set (r1 := (ReadWord lower r prefix prefix_size).2) in *.
    unfold ReadWord. rewrite ReadWord_scan_eq, Ha. now split.
Qed.

Lemma reading_twice_reads_nothing_witness :
  ReadUnsignedNumeral
    (ReadUnsignedNumeral (new Sample.cache Sample.numeral15)).2
  = (0, (ReadUnsignedNumeral (new Sample.cache Sample.numeral15)).2).
Proof.
  destruct (reading_twice_reads_nothing Sample.lower
              (new Sample.cache Sample.numeral15) [] 0) as (H & _).
  - vm_compute. discriminate.
  - split; vm_compute; discriminate.
  - exact H.
Defined.

End ReadingTwice.
